(** * SumGame: the game-state engine of [src/App.tsx]

    A shallow embedding of the state held by the [App] component and of the
    handlers and effects that change it, followed by the properties of the
    engine.

    Numbers.  Tile values, rows, columns, the target sum and the score are
    JavaScript numbers that only ever hold integers far below 2^53, on which
    binary64 arithmetic is exact; they are modelled as [Z].  [timeLeft] is
    produced by repeated binary64 subtraction ([prev - 0.1]) and is modelled
    by Rocq's primitive binary64 floats, so that the rounding of the source
    is the rounding of the model.  A result of [Math.random()] is an input
    from the environment; it is modelled by its exact rational value, and the
    products [r * 9] and [r * 16] are taken exactly.

    React.  Every [useState] cell is a field of [State].  A handler is a
    function on [State]; the queued functional updates of one handler are
    applied in the order in which they are queued, each once.  The
    [useEffect] that checks the sum runs after the handler, on the state the
    handler left; on the state it leaves it changes nothing
    ([checkSum_settled]). *)

From Stdlib Require Import ZArith List Bool String Ascii QArith Qround Lia.
From Stdlib Require Import Decimal DecimalString DecimalZ.
From Stdlib Require Import Floats.PrimFloat Floats.FloatOps Floats.SpecFloat.
Import ListNotations.

Set Warnings "-inexact-float".

Module SumGame.

Open Scope Z_scope.

(** ** Data model ([src/types/game]) *)

Inductive GameMode : Set := classic | time.

Record Block : Set := mkBlock {
  id : string;
  value : Z;
  row : Z;
  col : Z
}.

Definition GRID_COLS : Z := 6.
Definition GRID_ROWS : Z := 10.
Definition INITIAL_ROWS : Z := 4.

(** Seconds for time mode. *)
Definition TIME_LIMIT : float := 10%float.

(** The [useState] cells of [App] that the engine reads or writes
    ([lang], [showHelp] and [highScore] never flow into them). *)
Record State : Type := mkState {
  mode : option GameMode;
  blocks : list Block;
  selectedIds : list string;
  targetSum : Z;
  score : Z;
  isGameOver : bool;
  timeLeft : float;
  isPaused : bool
}.

Definition initialState : State :=
  {| mode := None; blocks := []; selectedIds := []; targetSum := 0;
     score := 0; isGameOver := false; timeLeft := TIME_LIMIT;
     isPaused := false |}.

(** The [set...] functions of the hooks. *)
Definition setMode (m : option GameMode) (s : State) : State :=
  {| mode := m; blocks := blocks s; selectedIds := selectedIds s;
     targetSum := targetSum s; score := score s; isGameOver := isGameOver s;
     timeLeft := timeLeft s; isPaused := isPaused s |}.

Definition setBlocks (bs : list Block) (s : State) : State :=
  {| mode := mode s; blocks := bs; selectedIds := selectedIds s;
     targetSum := targetSum s; score := score s; isGameOver := isGameOver s;
     timeLeft := timeLeft s; isPaused := isPaused s |}.

Definition setSelectedIds (ids : list string) (s : State) : State :=
  {| mode := mode s; blocks := blocks s; selectedIds := ids;
     targetSum := targetSum s; score := score s; isGameOver := isGameOver s;
     timeLeft := timeLeft s; isPaused := isPaused s |}.

Definition setTargetSum (t : Z) (s : State) : State :=
  {| mode := mode s; blocks := blocks s; selectedIds := selectedIds s;
     targetSum := t; score := score s; isGameOver := isGameOver s;
     timeLeft := timeLeft s; isPaused := isPaused s |}.

Definition setScore (n : Z) (s : State) : State :=
  {| mode := mode s; blocks := blocks s; selectedIds := selectedIds s;
     targetSum := targetSum s; score := n; isGameOver := isGameOver s;
     timeLeft := timeLeft s; isPaused := isPaused s |}.

Definition setIsGameOver (b : bool) (s : State) : State :=
  {| mode := mode s; blocks := blocks s; selectedIds := selectedIds s;
     targetSum := targetSum s; score := score s; isGameOver := b;
     timeLeft := timeLeft s; isPaused := isPaused s |}.

Definition setTimeLeft (t : float) (s : State) : State :=
  {| mode := mode s; blocks := blocks s; selectedIds := selectedIds s;
     targetSum := targetSum s; score := score s; isGameOver := isGameOver s;
     timeLeft := t; isPaused := isPaused s |}.

Definition setIsPaused (b : bool) (s : State) : State :=
  {| mode := mode s; blocks := blocks s; selectedIds := selectedIds s;
     targetSum := targetSum s; score := score s; isGameOver := isGameOver s;
     timeLeft := timeLeft s; isPaused := b |}.

(** ** The random source

    The successive results of [Math.random()], and how many of them have
    been consumed. *)
Record Random : Type := mkRandom {
  draws : nat -> Q;
  next : nat
}.

Definition Math_random (g : Random) : Q * Random :=
  (draws g (next g), {| draws := draws g; next := S (next g) |}).

(** [Math.random] returns a number in the half-open interval from 0 to 1. *)
Definition unitDraws (g : Random) : Prop :=
  forall n : nat, (0 <= draws g n)%Q /\ (draws g n < 1)%Q.

(** [Math.ceil] on a binary64 number, read off its sign, mantissa and
    exponent.  (On NaN and the infinities JavaScript returns the argument;
    [timeLeft] is never one of them, see [timeLeft_countdown].) *)
Definition Math_ceil (x : float) : Z :=
  match Prim2SF x with
  | S754_finite sign m e =>
      let n := if sign then Z.neg m else Z.pos m in
      if 0 <=? e then n * 2 ^ e else - ((- n) / 2 ^ (- e))
  | _ => 0
  end.

(** [array.includes(x)] on an array of strings. *)
Definition includes (x : string) (l : list string) : bool :=
  existsb (String.eqb x) l.

Definition isTime (m : option GameMode) : bool :=
  match m with Some time => true | _ => false end.

Definition isClassic (m : option GameMode) : bool :=
  match m with Some classic => true | _ => false end.

(** The column indices [0 .. GRID_COLS - 1] of [Array.from({length: GRID_COLS})]
    and the rows [GRID_ROWS - INITIAL_ROWS .. GRID_ROWS - 1] of the loop of
    [startGame]. *)
Definition columns : list Z := map Z.of_nat (seq 0 (Z.to_nat GRID_COLS)).

Definition initialRowIndices : list Z :=
  map (fun k => GRID_ROWS - INITIAL_ROWS + Z.of_nat k)
      (seq 0 (Z.to_nat INITIAL_ROWS)).

Definition position (b : Block) : Z * Z := (row b, col b).

Section Engine.

(** [Number.prototype.toString(36)], a built-in of the language. *)
Variable toString36 : Q -> string.

(** [Math.random().toString(36).substring(2, 9)] *)
Definition generateId (g : Random) : string * Random :=
  let (r, g') := Math_random g in (substring 2 7 (toString36 r), g').

(** [Math.floor(Math.random() * 9) + 1] *)
Definition getRandomValue (g : Random) : Z * Random :=
  let (r, g') := Math_random g in (Qfloor (r * inject_Z 9) + 1, g').

(** [Math.floor(Math.random() * 16) + 10] *)
Definition generateTarget (g : Random) : Z * Random :=
  let (r, g') := Math_random g in (Qfloor (r * inject_Z 16) + 10, g').

(** One block literal [{id: generateId(), value: getRandomValue(), row, col}]
    per column, left to right. *)
Fixpoint makeRow (r : Z) (cols : list Z) (g : Random) : list Block * Random :=
  match cols with
  | [] => ([], g)
  | c :: cs =>
      let (i, g1) := generateId g in
      let (v, g2) := getRandomValue g1 in
      let (rest, g3) := makeRow r cs g2 in
      ({| id := i; value := v; row := r; col := c |} :: rest, g3)
  end.

(** The nested loop of [startGame]. *)
Fixpoint makeRows (rows : list Z) (g : Random) : list Block * Random :=
  match rows with
  | [] => ([], g)
  | r :: rs =>
      let (here, g1) := makeRow r columns g in
      let (below, g2) := makeRows rs g1 in
      (here ++ below, g2)
  end.

Definition shiftUp (b : Block) : Block :=
  {| id := id b; value := value b; row := row b - 1; col := col b |}.

(** [addNewRow]: the updater passed to [setBlocks], with the
    [setIsGameOver(true)] it performs. *)
Definition addNewRow (s : State) (g : Random) : State * Random :=
  let prev := blocks s in
  let shifted := map shiftUp prev in
  if existsb (fun b => row b <? 0) shifted then
    (setIsGameOver true s, g)
  else
    let (newRow, g') := makeRow (GRID_ROWS - 1) columns g in
    (setBlocks (shifted ++ newRow) s, g').

Definition startGame (selectedMode : GameMode) (s : State) (g : Random)
  : State * Random :=
  let s := setMode (Some selectedMode) s in
  let s := setIsGameOver false s in
  let s := setScore 0 s in
  let s := setSelectedIds [] s in
  let (initialTarget, g) := generateTarget g in
  let s := setTargetSum initialTarget s in
  let s := setTimeLeft TIME_LIMIT s in
  let (initialBlocks, g) := makeRows initialRowIndices g in
  (setBlocks initialBlocks s, g).

(** The [k]-th tile that [startGame] creates, counting from 0 along the
    rows: the draw that follows the target's gives the id of tile 0, the next
    one its value, and so on, two draws per tile. *)
Definition initialTile (g : Random) (k : nat) : Block :=
  {| id := substring 2 7 (toString36 (draws g (2 * k + 1 + next g)));
     value := Qfloor (draws g (2 * k + 2 + next g) * inject_Z 9) + 1;
     row := GRID_ROWS - INITIAL_ROWS + Z.of_nat k / GRID_COLS;
     col := Z.of_nat k mod GRID_COLS |}.

Definition handleBlockClick (i : string) (s : State) : State :=
  if isGameOver s || isPaused s then s
  else
    let prev := selectedIds s in
    if includes i prev
    then setSelectedIds (filter (fun j => negb (String.eqb j i)) prev) s
    else setSelectedIds (prev ++ [i]) s.

(** [blocks.filter(b => selectedIds.includes(b.id)).reduce((sum, b) => sum + b.value, 0)] *)
Definition currentSum (s : State) : Z :=
  fold_left (fun sum b => sum + value b)
            (filter (fun b => includes (id b) (selectedIds s)) (blocks s)) 0.

(** The effect "Check sum". *)
Definition checkSum (s : State) (g : Random) : State * Random :=
  if (0 <? Z.of_nat (List.length (selectedIds s))) && (currentSum s =? targetSum s)
  then
    let count := Z.of_nat (List.length (selectedIds s)) in
    let s1 := setScore (score s + count * 10
                        + (if isTime (mode s) then Math_ceil (timeLeft s) else 0)) s in
    let s2 := setBlocks
                (filter (fun b => negb (includes (id b) (selectedIds s))) (blocks s1))
                s1 in
    let s3 := setSelectedIds [] s2 in
    let (t, g1) := generateTarget g in
    let s4 := setTargetSum t s3 in
    let s5 := setTimeLeft TIME_LIMIT s4 in
    if isClassic (mode s) then addNewRow s5 g1 else (s5, g1)
  else if currentSum s >? targetSum s then
    (setSelectedIds [] s, g)
  else (s, g).

(** The timer of time mode: the interval runs while this holds. *)
Definition timerRunning (s : State) : bool :=
  isTime (mode s) && negb (isGameOver s) && negb (isPaused s).

(** The updater of [setTimeLeft] in the interval callback, on the time alone. *)
Definition countDown (prev : float) : float :=
  if (prev <=? 0)%float then TIME_LIMIT else (prev - 0.1)%float.

(** One firing of the interval callback. *)
Definition timerTick (s : State) (g : Random) : State * Random :=
  if timerRunning s then
    if (timeLeft s <=? 0)%float then
      let (s', g') := addNewRow s g in (setTimeLeft TIME_LIMIT s', g')
    else (setTimeLeft (timeLeft s - 0.1)%float s, g)
  else (s, g).

(** The state a match leaves once its score, board, selection, target and
    time updates are applied, before any row advancement; [t] is the new
    target. *)
Definition afterMatch (s : State) (t : Z) : State :=
  {| mode := mode s;
     blocks := filter (fun b => negb (includes (id b) (selectedIds s))) (blocks s);
     selectedIds := [];
     targetSum := t;
     score := score s + Z.of_nat (List.length (selectedIds s)) * 10
              + (if isTime (mode s) then Math_ceil (timeLeft s) else 0);
     isGameOver := isGameOver s;
     timeLeft := TIME_LIMIT;
     isPaused := isPaused s |}.

(** The timer tick as the specification words it, for comparison with
    [timerTick]: the time is decremented by [delta] first, and the result is
    compared with 0.  This definition follows the specification, not the
    source. *)
Definition advanceTime_spec (delta : float) (s : State) (g : Random)
  : State * Random :=
  if timerRunning s then
    let t := (timeLeft s - delta)%float in
    if (t <=? 0)%float then
      let (s', g') := addNewRow s g in (setTimeLeft TIME_LIMIT s', g')
    else (setTimeLeft t s, g)
  else (s, g).

(** The time left [n] firings of the interval after a reset. *)
Definition timeAfter (n : nat) : float := Nat.iter n countDown TIME_LIMIT.

(** The firings of one round: after [roundLength] of them the time is back
    at [TIME_LIMIT], see [timeAfter_period]. *)
Definition roundLength : nat := 102.

Definition onCountdown (t : float) : Prop :=
  exists n : nat, (n < roundLength)%nat /\ t = timeAfter n.

Definition inTimeRange (t : float) : bool :=
  ((-0.1) <=? t)%float && (t <=? TIME_LIMIT)%float.

(** ** Events

    What can happen to a running [App]: the buttons that call [startGame],
    a click on a block, a firing of the interval, the pause button
    ([setIsPaused(!isPaused)]), the resume button ([setIsPaused(false)]) and
    the buttons that return to the menu ([setMode(null)]). *)
Inductive Event : Type :=
| StartGame (m : GameMode)
| BlockClick (i : string)
| Tick
| TogglePause
| Resume
| Menu.

Definition handle (e : Event) (s : State) (g : Random) : State * Random :=
  match e with
  | StartGame m => startGame m s g
  | BlockClick i => (handleBlockClick i s, g)
  | Tick => timerTick s g
  | TogglePause => (setIsPaused (negb (isPaused s)) s, g)
  | Resume => (setIsPaused false s, g)
  | Menu => (setMode None s, g)
  end.

(** A handler, then the effect on the state it left. *)
Definition step (e : Event) (s : State) (g : Random) : State * Random :=
  let (s', g') := handle e s g in checkSum s' g'.

Fixpoint run (es : list Event) (s : State) (g : Random) : State * Random :=
  match es with
  | [] => (s, g)
  | e :: rest => let (s', g') := step e s g in run rest s' g'
  end.

(** States reached from the initial one by events that satisfy [ok]. *)
Inductive reachableVia (ok : State -> Event -> Prop) : State -> Random -> Prop :=
| reach_init : forall g, reachableVia ok initialState g
| reach_step : forall e s g,
    reachableVia ok s g -> ok s e ->
    reachableVia ok (fst (step e s g)) (snd (step e s g)).

Definition reachable : State -> Random -> Prop :=
  reachableVia (fun _ _ => True).

(** No two tiles in one cell, and no tile below the bottom row. *)
Definition wellPlaced (bs : list Block) : Prop :=
  NoDup (map position bs) /\ Forall (fun b => row b <= GRID_ROWS - 1) bs.

(** Every selected id is the id of a tile on the board. *)
Definition selectionOnBoard (s : State) : Prop :=
  incl (selectedIds s) (map id (blocks s)).

(** The events of one session: all but the start of a new game. *)
Definition withinSession (e : Event) : Prop :=
  match e with
  | StartGame _ => False
  | _ => True
  end.

(** Input that arrives while the game is paused: clicks on tiles and
    firings of the interval. *)
Definition playInput (e : Event) : Prop :=
  match e with
  | BlockClick _ | Tick => True
  | _ => False
  end.

(** Clicks as the board offers them: on a tile that is on the board. *)
Definition clickOnBoard (s : State) (e : Event) : Prop :=
  match e with
  | BlockClick i => In i (map id (blocks s))
  | _ => True
  end.

(** Each event of the run satisfies [ok] in the state in which it happens. *)
Fixpoint legalRun (ok : State -> Event -> Prop) (es : list Event)
         (s : State) (g : Random) : Prop :=
  match es with
  | [] => True
  | e :: rest =>
      ok s e /\ legalRun ok rest (fst (step e s g)) (snd (step e s g))
  end.

(** The warning indicator drawn over the board:
    [blocks.some(b => b.row <= 1)]. *)
Definition overflowWarning (s : State) : bool :=
  existsb (fun b => row b <=? 1) (blocks s).

(** [n] firings of the interval callback in a row. *)
Fixpoint ticks (n : nat) (s : State) (g : Random) : State * Random :=
  match n with
  | O => (s, g)
  | S k => let (s', g') := ticks k s g in timerTick s' g'
  end.

(** The [k]-th tile of the row [addNewRow] appends, [k] being its column. *)
Definition newTile (g : Random) (k : nat) : Block :=
  {| id := substring 2 7 (toString36 (draws g (2 * k + next g)));
     value := Qfloor (draws g (2 * k + 1 + next g) * inject_Z 9) + 1;
     row := GRID_ROWS - 1;
     col := Z.of_nat k |}.

(** A tile inside the grid of [GRID_ROWS] rows and [GRID_COLS] columns. *)
Definition inGrid (b : Block) : Prop :=
  0 <= row b <= GRID_ROWS - 1 /\ 0 <= col b <= GRID_COLS - 1.


(** The cells of the grid, row by row. *)
Definition allCells : list (Z * Z) :=
  list_prod (map Z.of_nat (seq 0 (Z.to_nat GRID_ROWS))) columns.

(** The effect "Check sum" has nothing to do: the selected values sum to at
    most the target, and to less when something is selected. *)
Definition settled (s : State) : Prop :=
  currentSum s <= targetSum s
  /\ (selectedIds s <> [] -> currentSum s < targetSum s).

(** The fields of a game that its end freezes. *)
Definition sameGame (s s' : State) : Prop :=
  blocks s' = blocks s /\ selectedIds s' = selectedIds s
  /\ targetSum s' = targetSum s /\ score s' = score s
  /\ timeLeft s' = timeLeft s /\ isGameOver s' = isGameOver s.

End Engine.

(** ** The best score

    The [highScore] cell and the item ['summerge_highscore'] of
    [localStorage], with the two effects that load and update them.
    [highScore] is a number that [parseInt] may have made NaN: [None] stands
    for NaN.  The item is absent ([None]) or a string. *)
Record Best : Type := mkBest {
  highScore : option Z;
  saved : option string
}.

(** [n.toString()] for an integer [n]: its decimal digits, after a minus
    sign when it is negative. *)
Definition Number_toString (n : Z) : string :=
  NilZero.string_of_int (Z.to_int n).

Definition isDigit (c : ascii) : bool :=
  (48 <=? nat_of_ascii c)%nat && (nat_of_ascii c <=? 57)%nat.

(** The white space [parseInt] skips, among the characters below 256: tab,
    line feed, vertical tab, form feed, carriage return, space and
    no-break space. *)
Definition isWhiteSpace (c : ascii) : bool :=
  match nat_of_ascii c with
  | 9%nat | 10%nat | 11%nat | 12%nat | 13%nat | 32%nat | 160%nat => true
  | _ => false
  end.

Fixpoint trimStart (text : string) : string :=
  match text with
  | String c rest => if isWhiteSpace c then trimStart rest else text
  | EmptyString => EmptyString
  end.

Fixpoint digitPrefix (text : string) : string :=
  match text with
  | String c rest =>
      if isDigit c then String c (digitPrefix rest) else EmptyString
  | EmptyString => EmptyString
  end.

(** [parseInt(text, 10)]: leading white space is skipped, one sign is read,
    and the longest run of decimal digits that follows is the value; with no
    digit there the result is NaN.  The value is exact here; binary64 rounds
    it when it has more than 53 bits. *)
Definition parseInt10 (text : string) : option Z :=
  let s := trimStart text in
  let negative := match s with String "-" _ => true | _ => false end in
  let s := match s with
           | String "-" rest => rest
           | String "+" rest => rest
           | _ => s
           end in
  match digitPrefix s with
  | EmptyString => None
  | digits =>
      match NilEmpty.uint_of_string digits with
      | Some u => Some (if negative then - Z.of_uint u else Z.of_uint u)
      | None => None
      end
  end.

(** The effect "Load high score":
    [if (saved) setHighScore(parseInt(saved, 10))]. *)
Definition loadHighScore (b : Best) : Best :=
  match saved b with
  | Some (String c rest) =>
      {| highScore := parseInt10 (String c rest); saved := saved b |}
  | _ => b
  end.

(** The effect "Update high score", for the score of the state it runs on:
    [if (score > highScore) { setHighScore(score);
    localStorage.setItem('summerge_highscore', score.toString()) }]. *)
Definition updateHighScore (sc : Z) (b : Best) : Best :=
  match highScore b with
  | Some h =>
      if sc >? h
      then {| highScore := Some sc; saved := Some (Number_toString sc) |}
      else b
  | None => b
  end.

(** The two effects when [App] mounts on a storage that holds [item]: the
    score is 0 and [highScore] starts at 0. *)
Definition mountBest (item : option string) : Best :=
  updateHighScore 0 (loadHighScore {| highScore := Some 0; saved := item |}).

(** The best score after the scores of a session, in the order in which the
    states that carry them are rendered. *)
Definition bestAfter (scores : list Z) (b : Best) : Best :=
  fold_left (fun acc sc => updateHighScore sc acc) scores b.

(** ** Sample inputs

    A rendering of fractions in base 36 (the digits of the exact expansion),
    a random source, and a few states, used to run the engine on concrete
    inputs. *)

Definition digit36 (d : Z) : ascii :=
  nth (Z.to_nat d)
      (list_ascii_of_string "0123456789abcdefghijklmnopqrstuvwxyz") "0"%char.

Fixpoint fraction36 (n : nat) (q : Q) : string :=
  match n with
  | O => EmptyString
  | S k =>
      let d := Qfloor (q * inject_Z 36) in
      String (digit36 d) (fraction36 k (q * inject_Z 36 - inject_Z d)%Q)
  end.

Definition sampleToString36 (q : Q) : string :=
  ("0." ++ fraction36 11 q)%string.

Definition sampleDraws (n : nat) : Q :=
  Z.of_nat ((n * 37 + 11) mod 100) # 100.

Definition sampleRandom : Random := {| draws := sampleDraws; next := 0 |}.

Definition tile (i : string) (v r c : Z) : Block :=
  {| id := i; value := v; row := r; col := c |}.

Arguments tile i%_string (v r c)%_Z.

(** A classic-mode board with a tile in the top row. *)
Definition fullColumn : State :=
  {| mode := Some classic;
     blocks := [tile "top" 4 0 2; tile "mid" 6 1 2; tile "low" 9 2 2];
     selectedIds := ["mid"; "low"]%string; targetSum := 15; score := 40;
     isGameOver := false; timeLeft := TIME_LIMIT; isPaused := false |}.

(** Target 10 with tiles worth 12 selected. *)
Definition overshoot : State :=
  {| mode := Some time;
     blocks := [tile "a" 5 9 0; tile "b" 7 9 1; tile "c" 3 9 2];
     selectedIds := ["a"; "b"]%string; targetSum := 10; score := 20;
     isGameOver := false; timeLeft := 7.5%float; isPaused := false |}.

(** Target 15 with tiles worth 9 and 6 selected, in time mode with 7.5
    seconds left. *)
Definition matching : State :=
  {| mode := Some time;
     blocks := [tile "a" 9 9 0; tile "b" 6 9 1; tile "c" 3 9 2];
     selectedIds := ["a"; "b"]%string; targetSum := 15; score := 20;
     isGameOver := false; timeLeft := 7.5%float; isPaused := false |}.

(** Time mode with 0.05 seconds left. *)
Definition almostOut : State :=
  {| mode := Some time;
     blocks := [tile "a" 5 9 0; tile "b" 7 9 1; tile "c" 3 9 2];
     selectedIds := []; targetSum := 10; score := 20;
     isGameOver := false; timeLeft := 0.05%float; isPaused := false |}.


(** A game that was paused and then left for the menu. *)
Definition pausedAtMenu : State :=
  fst (run sampleToString36 [StartGame classic; TogglePause; Menu]
           initialState sampleRandom).

(** A game in time mode in which, one firing of the interval after the
    start, the tiles worth 8 and 3 are clicked for the target 11. *)
Definition playedRun : State * Random :=
  run sampleToString36
      [StartGame time; Tick; BlockClick "ha2voha"; BlockClick "yk5rcyk"]
      initialState sampleRandom.

(** A click with an id that no tile of the board has, right after the
    start of a game. *)
Definition staleClick : State * Random :=
  run sampleToString36 [StartGame time; BlockClick "ghost"]
      initialState sampleRandom.

(** A game in time mode left alone for 101 firings of the interval. *)
Definition idleRun : State * Random :=
  run sampleToString36 (StartGame time :: repeat Tick 101)
      initialState sampleRandom.

(** The game of [playedRun] before the click that completes the match: the
    tile worth 8 is selected for the target 11. *)
Definition oneClick : State * Random :=
  run sampleToString36 [StartGame time; Tick; BlockClick "ha2voha"]
      initialState sampleRandom.

(** A game in time mode left alone until the rows overflow: seven rounds of
    102 firings of the interval. *)
Definition lostRun : State * Random :=
  run sampleToString36 (StartGame time :: repeat Tick 714)
      initialState sampleRandom.

(** ** Properties *)

Section Properties.

Variable toString36 : Q -> string.

Local Abbreviation addNewRow := (SumGame.addNewRow toString36).
Local Abbreviation checkSum := (SumGame.checkSum toString36).
Local Abbreviation startGame := (SumGame.startGame toString36).
Local Abbreviation timerTick := (SumGame.timerTick toString36).
Local Abbreviation handle := (SumGame.handle toString36).
Local Abbreviation step := (SumGame.step toString36).
Local Abbreviation run := (SumGame.run toString36).
Local Abbreviation reachableVia := (SumGame.reachableVia toString36).
Local Abbreviation reachable := (SumGame.reachable toString36).

(** Case analysis on the tests and on the pairs an operation returns. *)
Ltac branches :=
  repeat match goal with
         | |- context [let (_, _) := ?p in _] => destruct p eqn:?
         | |- context [if ?b then _ else _] => destruct b eqn:?
         end.

(** *** Random draws *)

Lemma floor_scale (r : Q) (n : Z) :
  0 < n -> (0 <= r)%Q -> (r < 1)%Q -> 0 <= Qfloor (r * inject_Z n) < n.
Proof.
  intros Hn H0 H1.
  assert (Hpos : (0 < inject_Z n)%Q).
  { change (inject_Z 0 < inject_Z n)%Q. rewrite <- Zlt_Qlt. exact Hn. }
  split.
  - change 0 with (Qfloor (inject_Z 0)) at 1.
    apply Qfloor_resp_le.
    apply Qmult_le_0_compat; [exact H0 | apply Qlt_le_weak; exact Hpos].
  - rewrite Zlt_Qlt.
    apply Qle_lt_trans with (r * inject_Z n)%Q; [apply Qfloor_le |].
    setoid_replace (inject_Z n) with (1 * inject_Z n)%Q at 2 by ring.
    apply Qmult_lt_compat_r; assumption.
Qed.

Lemma generateTarget_range (g : Random) :
  unitDraws g -> 10 <= fst (generateTarget g) <= 25.
Proof.
  intros Hg. unfold generateTarget, Math_random. cbn [fst].
  destruct (Hg (next g)) as [H0 H1].
  pose proof (floor_scale (draws g (next g)) 16 eq_refl H0 H1). lia.
Qed.


(** *** Runs *)

Lemma reachableVia_invariant (ok : State -> Event -> Prop) (P : State -> Prop) :
  P initialState ->
  (forall e s g, P s -> ok s e -> P (fst (step e s g))) ->
  forall s g, reachableVia ok s g -> P s.
Proof.
  intros Hinit Hstep s g H.
  induction H as [g | e s g _ IH Hok]; [exact Hinit |].
  apply Hstep; assumption.
Qed.

Lemma run_reachableVia (ok : State -> Event -> Prop) (es : list Event) :
  forall s g, reachableVia ok s g -> legalRun toString36 ok es s g ->
              reachableVia ok (fst (run es s g)) (snd (run es s g)).
Proof.
  induction es as [| e es IH]; intros s g H Hok;
    cbn [SumGame.run SumGame.legalRun] in *; [exact H |].
  destruct Hok as [Hok Hrest].
  pose proof (reach_step toString36 ok e s g H Hok) as H1.
  destruct (step e s g) as [s1 g1]. apply IH; assumption.
Qed.

Lemma run_reachable (es : list Event) :
  forall s g, reachable s g ->
              reachable (fst (run es s g)) (snd (run es s g)).
Proof.
  intros s g H. apply run_reachableVia; [exact H |].
  clear H. revert s g.
  induction es as [| e es IH]; intros s g; cbn [SumGame.legalRun];
    [exact I | split; [exact I | apply IH]].
Qed.

(** *** What the operations leave alone *)

Lemma addNewRow_frame (s : State) (g : Random) :
  let s' := fst (addNewRow s g) in
  mode s' = mode s /\ selectedIds s' = selectedIds s
  /\ targetSum s' = targetSum s /\ score s' = score s
  /\ timeLeft s' = timeLeft s /\ isPaused s' = isPaused s.
Proof.
  unfold SumGame.addNewRow. branches; simpl; repeat split; reflexivity.
Qed.

Lemma handleBlockClick_frame (i : string) (s : State) :
  let s' := handleBlockClick i s in
  mode s' = mode s /\ blocks s' = blocks s
  /\ targetSum s' = targetSum s /\ score s' = score s
  /\ isGameOver s' = isGameOver s
  /\ timeLeft s' = timeLeft s /\ isPaused s' = isPaused s.
Proof.
  unfold handleBlockClick. branches; simpl; repeat split; reflexivity.
Qed.

Lemma timerTick_frame (s : State) (g : Random) :
  let s' := fst (timerTick s g) in
  mode s' = mode s /\ selectedIds s' = selectedIds s
  /\ targetSum s' = targetSum s /\ score s' = score s
  /\ isPaused s' = isPaused s.
Proof.
  unfold SumGame.timerTick.
  destruct (timerRunning s); [| simpl; repeat split; reflexivity].
  destruct (timeLeft s <=? 0)%float; [| simpl; repeat split; reflexivity].
  pose proof (addNewRow_frame s g) as F.
  destruct (addNewRow s g) as [s1 g1]. simpl in *. tauto.
Qed.

(** *** Row advancement *)

Lemma overflow_detected (bs : list Block) :
  (exists b, In b bs /\ row b <= 0) ->
  existsb (fun b => row b <? 0) (map shiftUp bs) = true.
Proof.
  intros [b [Hin Hrow]]. apply existsb_exists.
  exists (shiftUp b). split; [apply in_map; exact Hin |].
  simpl. apply Z.ltb_lt. lia.
Qed.

Lemma overflow_ends_game (s : State) (g : Random) :
  (exists b, In b (blocks s) /\ row b <= 0) ->
  addNewRow s g = (setIsGameOver true s, g).
Proof.
  intros H. unfold SumGame.addNewRow.
  rewrite overflow_detected by exact H. reflexivity.
Qed.

(** C3: when some tile is at row 0, a row advancement sets game-over, leaves
    the board exactly as it was (same tiles, same count) and generates no new
    row: the random source is not consulted. *)
Theorem addNewRow_overflow (s : State) (g : Random) :
  (exists b, In b (blocks s) /\ row b = 0) ->
  addNewRow s g = (setIsGameOver true s, g)
  /\ isGameOver (fst (addNewRow s g)) = true
  /\ blocks (fst (addNewRow s g)) = blocks s
  /\ List.length (blocks (fst (addNewRow s g))) = List.length (blocks s)
  /\ snd (addNewRow s g) = g.
Proof.
  intros [b [Hin Hrow]].
  assert (E : addNewRow s g = (setIsGameOver true s, g)).
  { apply overflow_ends_game. exists b. split; [exact Hin | lia]. }
  rewrite E. simpl. repeat split; reflexivity.
Qed.

(** *** The sum check *)

Lemma selection_nonempty (l : list string) :
  l <> [] -> (0 <? Z.of_nat (List.length l)) = true.
Proof.
  destruct l as [| x l]; [congruence |].
  intros _. apply Z.ltb_lt. simpl List.length. lia.
Qed.

(** C4: when the selected values sum to more than the target, the check
    clears the selection and changes nothing else. *)
Theorem bust_clears_selection (s : State) (g : Random) :
  currentSum s > targetSum s ->
  checkSum s g = (setSelectedIds [] s, g)
  /\ selectedIds (fst (checkSum s g)) = []
  /\ score (fst (checkSum s g)) = score s
  /\ blocks (fst (checkSum s g)) = blocks s
  /\ targetSum (fst (checkSum s g)) = targetSum s
  /\ mode (fst (checkSum s g)) = mode s.
Proof.
  intros Hgt.
  assert (E : checkSum s g = (setSelectedIds [] s, g)).
  { unfold SumGame.checkSum.
    replace (currentSum s =? targetSum s) with false
      by (symmetry; apply Z.eqb_neq; lia).
    rewrite andb_false_r.
    replace (currentSum s >? targetSum s) with true
      by (symmetry; apply Z.gtb_gt; lia).
    reflexivity. }
  rewrite E. simpl. repeat split; reflexivity.
Qed.

Lemma checkSum_match (s : State) (g : Random) :
  selectedIds s <> [] ->
  currentSum s = targetSum s ->
  checkSum s g =
    (if isClassic (mode s)
     then addNewRow (afterMatch s (fst (generateTarget g))) (snd (generateTarget g))
     else (afterMatch s (fst (generateTarget g)), snd (generateTarget g))).
Proof.
  intros Hsel Hsum. unfold SumGame.checkSum.
  rewrite (selection_nonempty _ Hsel).
  replace (currentSum s =? targetSum s) with true
    by (symmetry; apply Z.eqb_eq; exact Hsum).
  simpl andb. cbv iota.
  destruct (generateTarget g) as [t g1]. reflexivity.
Qed.

(** C1: a non-empty selection whose values sum to the target is a match.
    The check then adds [count * 10], and in time mode only the ceiling of
    the time left, to the score; keeps exactly the tiles that are not
    selected; empties the selection; draws a new target, which lies in
    10..25; resets the time to [TIME_LIMIT]; and in classic mode, and only
    then, advances the rows of the resulting state. *)
Theorem match_transition (s : State) (g : Random) :
  unitDraws g ->
  selectedIds s <> [] ->
  currentSum s = targetSum s ->
  let t := fst (generateTarget g) in
  let g1 := snd (generateTarget g) in
  let m := afterMatch s t in
  let s' := fst (checkSum s g) in
  checkSum s g = (if isClassic (mode s) then addNewRow m g1 else (m, g1))
  /\ score s' = score s + Z.of_nat (List.length (selectedIds s)) * 10
                 + (if isTime (mode s) then Math_ceil (timeLeft s) else 0)
  /\ (forall b, In b (blocks m) <->
                In b (blocks s) /\ includes (id b) (selectedIds s) = false)
  /\ (isClassic (mode s) = false -> blocks s' = blocks m)
  /\ selectedIds s' = []
  /\ targetSum s' = t /\ 10 <= t <= 25
  /\ timeLeft s' = TIME_LIMIT
  /\ mode s' = mode s /\ isPaused s' = isPaused s.
Proof.
  intros Hg Hsel Hsum t g1 m s'.
  assert (E : checkSum s g
              = (if isClassic (mode s) then addNewRow m g1 else (m, g1)))
    by (apply checkSum_match; assumption).
  assert (F : mode s' = mode m /\ selectedIds s' = selectedIds m
              /\ targetSum s' = targetSum m /\ score s' = score m
              /\ timeLeft s' = timeLeft m /\ isPaused s' = isPaused m).
  { unfold s'. rewrite E. destruct (isClassic (mode s)).
    - apply addNewRow_frame.
    - cbn [fst]. repeat split; reflexivity. }
  destruct F as (Fm & Fsel & Ft & Fs & Ftime & Fp).
  split; [exact E |].
  split; [rewrite Fs; reflexivity |].
  split.
  { intros b. unfold m. cbn [afterMatch blocks].
    rewrite filter_In, negb_true_iff. tauto. }
  split; [intros Hc; unfold s'; rewrite E, Hc; reflexivity |].
  split; [rewrite Fsel; reflexivity |].
  split; [rewrite Ft; reflexivity |].
  split; [apply generateTarget_range; exact Hg |].
  split; [rewrite Ftime; reflexivity |].
  split; [rewrite Fm; reflexivity | rewrite Fp; reflexivity].
Qed.

(** C10: in classic mode, when a match leaves a tile in row 0, the row
    advancement that follows ends the game, and the match is committed all the
    same: the final state is the state the match left (score raised, selected
    tiles removed and nothing shifted, selection empty, new target, time
    reset) with the game-over flag set. *)
Theorem classic_match_game_over (s : State) (g : Random) :
  mode s = Some classic ->
  selectedIds s <> [] ->
  currentSum s = targetSum s ->
  (exists b, In b (blocks s) /\ includes (id b) (selectedIds s) = false
             /\ row b = 0) ->
  let t := fst (generateTarget g) in
  let s' := fst (checkSum s g) in
  checkSum s g = (setIsGameOver true (afterMatch s t), snd (generateTarget g))
  /\ isGameOver s' = true
  /\ score s' = score s + Z.of_nat (List.length (selectedIds s)) * 10
  /\ blocks s' = filter (fun b => negb (includes (id b) (selectedIds s))) (blocks s)
  /\ selectedIds s' = []
  /\ targetSum s' = t
  /\ timeLeft s' = TIME_LIMIT.
Proof.
  intros Hmode Hsel Hsum [b [Hin [Hout Hrow]]] t s'.
  assert (E : checkSum s g
              = (setIsGameOver true (afterMatch s t), snd (generateTarget g))).
  { rewrite checkSum_match by assumption.
    rewrite Hmode. simpl isClassic. cbv iota.
    apply overflow_ends_game.
    exists b. split; [| lia].
    simpl. apply filter_In. split; [exact Hin |].
    rewrite Hout. reflexivity. }
  unfold s'. rewrite E. simpl. rewrite Hmode. simpl.
  repeat split; try reflexivity. lia.
Qed.

(** *** One run of the effect is enough

    The effect runs again whenever a state it depends on has changed.  On
    the state it leaves it changes nothing, so [step] runs it once. *)

Lemma currentSum_no_selection (s : State) :
  selectedIds s = [] -> currentSum s = 0.
Proof.
  intros E. unfold currentSum. rewrite E.
  induction (blocks s) as [| b bs IH]; [reflexivity | exact IH].
Qed.

Lemma checkSum_idle (s : State) (h : Random) :
  selectedIds s = [] -> 0 <= targetSum s -> checkSum s h = (s, h).
Proof.
  intros E Ht. unfold SumGame.checkSum.
  rewrite (currentSum_no_selection s E), E. cbn [List.length Z.of_nat].
  replace (0 >? targetSum s) with false
    by (symmetry; rewrite Z.gtb_ltb; apply Z.ltb_ge; exact Ht).
  reflexivity.
Qed.

Lemma checkSum_result (s : State) (g : Random) :
  (selectedIds (fst (checkSum s g)) = []
   /\ (targetSum (fst (checkSum s g)) = targetSum s
       \/ targetSum (fst (checkSum s g)) = fst (generateTarget g)))
  \/ (forall h, checkSum s h = (s, h)).
Proof.
  unfold SumGame.checkSum.
  destruct (_ && _).
  - left. destruct (generateTarget g) as [t g1].
    destruct (isClassic (mode s)).
    + match goal with
      | |- context [addNewRow ?m ?k] =>
          pose proof (addNewRow_frame m k) as F; cbv zeta in F
      end.
      destruct F as (_ & E1 & E2 & _). rewrite E1, E2.
      split; [reflexivity | right; reflexivity].
    + split; [reflexivity | right; reflexivity].
  - destruct (currentSum s >? targetSum s).
    + left. split; [reflexivity | left; reflexivity].
    + right. intros h. reflexivity.
Qed.

Lemma checkSum_settled (s : State) (g h : Random) :
  unitDraws g -> 0 <= targetSum s ->
  checkSum (fst (checkSum s g)) h = (fst (checkSum s g), h).
Proof.
  intros Hg Ht.
  destruct (checkSum_result s g) as [[Esel Etarget] | Esame].
  - apply checkSum_idle; [exact Esel |].
    pose proof (generateTarget_range g Hg).
    destruct Etarget as [E | E]; rewrite E; lia.
  - rewrite (Esame g). cbn [fst]. apply Esame.
Qed.

(** *** The countdown *)

Lemma timeAfter_S (n : nat) : timeAfter (S n) = countDown (timeAfter n).
Proof. reflexivity. Qed.

Lemma timeAfter_period : timeAfter roundLength = timeAfter 0.
Proof. vm_compute. reflexivity. Qed.

Lemma countdown_checked :
  forallb (fun n => inTimeRange (timeAfter n)
                    && (0 <=? Math_ceil (timeAfter n)))
          (seq 0 roundLength) = true.
Proof. vm_compute. reflexivity. Qed.

Lemma onCountdown_checked (t : float) :
  onCountdown t -> inTimeRange t = true /\ 0 <= Math_ceil t.
Proof.
  intros [n [Hn Ht]]. subst t.
  pose proof countdown_checked as H.
  rewrite forallb_forall in H.
  specialize (H n). rewrite in_seq in H.
  apply andb_prop in H; [| lia].
  destruct H as [H1 H2]. split; [exact H1 | apply Z.leb_le; exact H2].
Qed.

Lemma onCountdown_TIME_LIMIT : onCountdown TIME_LIMIT.
Proof. exists 0%nat. split; [unfold roundLength; lia | reflexivity]. Qed.

Lemma onCountdown_countDown (t : float) :
  onCountdown t -> onCountdown (countDown t).
Proof.
  intros [n [Hn Ht]]. subst t.
  destruct (Nat.eq_dec (S n) roundLength) as [E | E].
  - rewrite <- timeAfter_S, E, timeAfter_period.
    exists 0%nat. split; [unfold roundLength; lia | reflexivity].
  - exists (S n). split; [lia | reflexivity].
Qed.

Lemma timerTick_timeLeft (s : State) (g : Random) :
  timeLeft (fst (timerTick s g))
  = if timerRunning s then countDown (timeLeft s) else timeLeft s.
Proof.
  unfold SumGame.timerTick, countDown.
  destruct (timerRunning s); [| reflexivity].
  destruct (timeLeft s <=? 0)%float; [| reflexivity].
  destruct (addNewRow s g) as [s1 g1]. reflexivity.
Qed.

Lemma checkSum_timeLeft (s : State) (g : Random) :
  timeLeft (fst (checkSum s g)) = timeLeft s
  \/ timeLeft (fst (checkSum s g)) = TIME_LIMIT.
Proof.
  unfold SumGame.checkSum.
  destruct (_ && _).
  - right. destruct (generateTarget g) as [t g1].
    destruct (isClassic (mode s)); [| reflexivity].
    match goal with
    | |- timeLeft (fst (addNewRow ?m ?h)) = _ =>
        pose proof (addNewRow_frame m h) as F; simpl in F
    end.
    tauto.
  - destruct (currentSum s >? targetSum s); left; reflexivity.
Qed.

Lemma startGame_timeLeft (m : GameMode) (s : State) (g : Random) :
  timeLeft (fst (startGame m s g)) = TIME_LIMIT.
Proof. unfold SumGame.startGame. branches. reflexivity. Qed.

Lemma handle_onCountdown (e : Event) (s : State) (g : Random) :
  onCountdown (timeLeft s) -> onCountdown (timeLeft (fst (handle e s g))).
Proof.
  intros H. destruct e as [m | i | | | |]; cbn [SumGame.handle fst].
  - rewrite startGame_timeLeft. apply onCountdown_TIME_LIMIT.
  - destruct (handleBlockClick_frame i s) as (_ & _ & _ & _ & _ & E & _).
    rewrite E. exact H.
  - rewrite timerTick_timeLeft.
    destruct (timerRunning s); [apply onCountdown_countDown |]; exact H.
  - exact H.
  - exact H.
  - exact H.
Qed.

Lemma step_onCountdown (e : Event) (s : State) (g : Random) :
  onCountdown (timeLeft s) -> onCountdown (timeLeft (fst (step e s g))).
Proof.
  intros H. unfold SumGame.step.
  pose proof (handle_onCountdown e s g H) as H1.
  destruct (handle e s g) as [s1 g1]. cbn [fst] in H1.
  destruct (checkSum_timeLeft s1 g1) as [E | E]; rewrite E;
    [exact H1 | apply onCountdown_TIME_LIMIT].
Qed.

Lemma timeLeft_countdown (s : State) (g : Random) :
  reachable s g -> onCountdown (timeLeft s).
Proof.
  apply (reachableVia_invariant (fun _ _ => True)
           (fun s => onCountdown (timeLeft s))).
  - apply onCountdown_TIME_LIMIT.
  - intros e s0 g0 H _. apply step_onCountdown. exact H.
Qed.

(** C2, as the code has it: while the timer runs, a firing of the interval
    tests the time left before it decrements it.  If the time left is at or
    below 0, the rows advance and the time is reset to exactly [TIME_LIMIT];
    otherwise the time is decremented by 0.1 and nothing else changes,
    whatever the sign of the result. *)
Theorem timerTick_cases (s : State) (g : Random) :
  timerRunning s = true ->
  ((timeLeft s <=? 0)%float = true ->
     timerTick s g = (setTimeLeft TIME_LIMIT (fst (addNewRow s g)),
                      snd (addNewRow s g))
     /\ timeLeft (fst (timerTick s g)) = TIME_LIMIT)
  /\ ((timeLeft s <=? 0)%float = false ->
       timerTick s g = (setTimeLeft (timeLeft s - 0.1)%float s, g)).
Proof.
  intros Hrun. unfold SumGame.timerTick. rewrite Hrun.
  split; intros Hle; rewrite Hle.
  - destruct (addNewRow s g) as [s1 g1]. split; reflexivity.
  - reflexivity.
Qed.

(** C7, as the code has it: in every reachable state the time left is one of
    the values [timeAfter n] of the countdown, [n] below [roundLength]; it is
    at least -0.1 and at most [TIME_LIMIT]. *)
Theorem timeLeft_range (s : State) (g : Random) :
  reachable s g ->
  onCountdown (timeLeft s)
  /\ ((-0.1) <=? timeLeft s)%float = true
  /\ (timeLeft s <=? TIME_LIMIT)%float = true.
Proof.
  intros H. pose proof (timeLeft_countdown s g H) as Hc.
  split; [exact Hc |].
  destruct (onCountdown_checked _ Hc) as [Hr _].
  unfold inTimeRange in Hr. apply andb_prop in Hr. exact Hr.
Qed.

(** *** The score *)

Lemma checkSum_score (s : State) (g : Random) :
  onCountdown (timeLeft s) -> score s <= score (fst (checkSum s g)).
Proof.
  intros Hc. destruct (onCountdown_checked _ Hc) as [_ Hceil].
  unfold SumGame.checkSum.
  destruct (_ && _).
  - destruct (generateTarget g) as [t g1].
    assert (Hadd : score s <= score s
                   + Z.of_nat (List.length (selectedIds s)) * 10
                   + (if isTime (mode s) then Math_ceil (timeLeft s) else 0))
      by (destruct (isTime (mode s)); lia).
    destruct (isClassic (mode s)); [| exact Hadd].
    match goal with
    | |- _ <= score (fst (addNewRow ?m ?h)) =>
        pose proof (addNewRow_frame m h) as F; cbv zeta in F
    end.
    destruct F as (_ & _ & _ & E & _). rewrite E. exact Hadd.
  - destruct (currentSum s >? targetSum s); simpl; lia.
Qed.

Lemma handle_score (e : Event) (s : State) (g : Random) :
  (forall m, e <> StartGame m) -> score (fst (handle e s g)) = score s.
Proof.
  intros Hne.
  destruct e as [m | i | | | |]; cbn [SumGame.handle fst]; try reflexivity.
  - exfalso. exact (Hne m eq_refl).
  - apply (handleBlockClick_frame i s).
  - apply (timerTick_frame s g).
Qed.

Lemma startGame_score (m : GameMode) (s : State) (g : Random) :
  score (fst (startGame m s g)) = 0.
Proof. unfold SumGame.startGame. branches. reflexivity. Qed.

Lemma step_score_nonneg (e : Event) (s : State) (g : Random) :
  onCountdown (timeLeft s) -> 0 <= score s -> 0 <= score (fst (step e s g)).
Proof.
  intros Hc Hs. unfold SumGame.step.
  pose proof (handle_onCountdown e s g Hc) as H1.
  assert (H2 : 0 <= score (fst (handle e s g))).
  { destruct e as [m | i | | | |];
      try (rewrite handle_score by discriminate; exact Hs).
    cbn [SumGame.handle]. rewrite startGame_score. lia. }
  destruct (handle e s g) as [s1 g1]. cbn [fst] in H1, H2.
  pose proof (checkSum_score s1 g1 H1). lia.
Qed.

Lemma step_score (e : Event) (s : State) (g : Random) :
  onCountdown (timeLeft s) -> withinSession e ->
  score s <= score (fst (step e s g)).
Proof.
  intros Hc He. unfold SumGame.step.
  pose proof (handle_onCountdown e s g Hc) as H1.
  assert (H2 : score (fst (handle e s g)) = score s).
  { apply handle_score. intros m E. subst e. exact He. }
  destruct (handle e s g) as [s1 g1]. cbn [fst] in H1, H2.
  pose proof (checkSum_score s1 g1 H1). lia.
Qed.

(** C9: in every reachable state the score is a non-negative integer, and no
    sequence of events without the start of a new game lowers it. *)
Theorem score_monotone (s : State) (g : Random) :
  reachable s g ->
  0 <= score s
  /\ forall es, Forall withinSession es ->
                score s <= score (fst (run es s g)).
Proof.
  intros H. split.
  - revert s g H.
    apply (reachableVia_invariant (fun _ _ => True)
             (fun s => onCountdown (timeLeft s) /\ 0 <= score s)).
    + split; [apply onCountdown_TIME_LIMIT | cbn [initialState score]; lia].
    + intros e s0 g0 [Hc0 Hs0] _.
      split; [apply step_onCountdown | apply step_score_nonneg]; assumption.
  - intros es. revert s g H.
    induction es as [| e es IH]; intros s g H Hes; cbn [SumGame.run fst];
      [lia |].
    inversion Hes as [| e0 es0 He Hrest]; subst.
    pose proof (step_score e s g (timeLeft_countdown s g H) He) as H1.
    pose proof (reach_step toString36 (fun _ _ => True) e s g H I) as H2.
    destruct (step e s g) as [s1 g1]. cbn [fst snd] in H1, H2.
    specialize (IH s1 g1 H2 Hrest). lia.
Qed.

(** *** Where the tiles are *)

Lemma makeRow_positions (r : Z) (cols : list Z) :
  forall g, map position (fst (makeRow toString36 r cols g)) = map (pair r) cols.
Proof.
  induction cols as [| c cs IH]; intros g; [reflexivity |].
  cbn [SumGame.makeRow].
  destruct (generateId toString36 g) as [i g1].
  destruct (getRandomValue g1) as [v g2].
  specialize (IH g2).
  destruct (makeRow toString36 r cs g2) as [rest g3].
  cbn [fst map] in *. rewrite IH. reflexivity.
Qed.

Lemma positions_filter (keep : Block -> bool) (bs : list Block) :
  NoDup (map position bs) -> NoDup (map position (filter keep bs)).
Proof.
  induction bs as [| b bs IH]; cbn [map filter]; intros H; [exact H |].
  inversion H as [| q qs Hfresh Hrest]; subst.
  destruct (keep b); [| exact (IH Hrest)].
  cbn [map]. constructor; [| exact (IH Hrest)].
  intros Hin. apply Hfresh.
  apply in_map_iff in Hin. destruct Hin as [b' [Hb' Hin]].
  apply filter_In in Hin. apply in_map_iff. exists b'. tauto.
Qed.

Lemma NoDup_map_injective {A B : Type} (f : A -> B) (l : list A) :
  (forall x y, f x = f y -> x = y) -> NoDup l -> NoDup (map f l).
Proof.
  intros Hinj H. induction H as [| a l Hnot _ IH]; [constructor |].
  cbn [map]. constructor; [| exact IH].
  intros Hin. apply in_map_iff in Hin. destruct Hin as [b [Hb Hin]].
  apply Hinj in Hb. subst b. exact (Hnot Hin).
Qed.

Lemma wellPlaced_filter (p : Block -> bool) (bs : list Block) :
  wellPlaced bs -> wellPlaced (filter p bs).
Proof.
  intros [Hnd Hrows]. split; [apply positions_filter; exact Hnd |].
  rewrite Forall_forall in *. intros b Hb.
  apply filter_In in Hb. apply Hrows. tauto.
Qed.

Lemma columns_NoDup : NoDup columns.
Proof.
  change columns with [0; 1; 2; 3; 4; 5].
  repeat (constructor; [cbn [In]; intuition discriminate |]). constructor.
Qed.

Lemma wellPlaced_advance (bs newRow : list Block) :
  wellPlaced bs ->
  map position newRow = map (pair (GRID_ROWS - 1)) columns ->
  wellPlaced (map shiftUp bs ++ newRow).
Proof.
  intros [Hnd Hrows] Hnew. split.
  - rewrite map_app. apply NoDup_app.
    + rewrite map_map.
      change (fun b => position (shiftUp b))
        with (fun b => (fun q : Z * Z => (fst q - 1, snd q)) (position b)).
      rewrite <- map_map.
      apply NoDup_map_injective; [| exact Hnd].
      intros [r1 c1] [r2 c2] E. cbn [fst snd] in E.
      inversion E. f_equal. lia.
    + rewrite Hnew.
      apply NoDup_map_injective; [| exact columns_NoDup].
      intros c1 c2 E. inversion E. reflexivity.
    + intros q Hold Hin. rewrite Hnew in Hin.
      apply in_map_iff in Hin. destruct Hin as [c [Hq _]].
      apply in_map_iff in Hold. destruct Hold as [b [Hb HbIn]].
      apply in_map_iff in HbIn. destruct HbIn as [b0 [Hb0 Hb0In]].
      rewrite Forall_forall in Hrows. specialize (Hrows b0 Hb0In).
      subst b q. unfold position, shiftUp in Hq. cbn [row col] in Hq.
      unfold GRID_ROWS in *. inversion Hq. lia.
  - apply Forall_app. split.
    + rewrite Forall_forall in *. intros b Hb.
      apply in_map_iff in Hb. destruct Hb as [b0 [Hb0 Hb0In]].
      specialize (Hrows b0 Hb0In). subst b. cbn [shiftUp row].
      unfold GRID_ROWS in *. lia.
    + rewrite Forall_forall. intros b Hb.
      assert (Hp : In (position b) (map (pair (GRID_ROWS - 1)) columns))
        by (rewrite <- Hnew; apply in_map; exact Hb).
      apply in_map_iff in Hp. destruct Hp as [c [Hq _]].
      unfold position, GRID_ROWS in *. inversion Hq. lia.
Qed.

Lemma addNewRow_wellPlaced (s : State) (g : Random) :
  wellPlaced (blocks s) -> wellPlaced (blocks (fst (addNewRow s g))).
Proof.
  intros H. unfold SumGame.addNewRow.
  destruct (existsb _ _); [exact H |].
  pose proof (makeRow_positions (GRID_ROWS - 1) columns g) as Hnew.
  destruct (makeRow toString36 (GRID_ROWS - 1) columns g) as [newRow g1].
  cbn [fst setBlocks blocks] in *.
  apply wellPlaced_advance; assumption.
Qed.

Lemma checkSum_wellPlaced (s : State) (g : Random) :
  wellPlaced (blocks s) -> wellPlaced (blocks (fst (checkSum s g))).
Proof.
  intros H. unfold SumGame.checkSum.
  destruct (_ && _).
  - destruct (generateTarget g) as [t g1].
    assert (Hf : wellPlaced
                   (filter (fun b => negb (includes (id b) (selectedIds s)))
                           (blocks s)))
      by (apply wellPlaced_filter; exact H).
    destruct (isClassic (mode s)); [| exact Hf].
    apply addNewRow_wellPlaced. exact Hf.
  - destruct (currentSum s >? targetSum s); exact H.
Qed.

Lemma timerTick_wellPlaced (s : State) (g : Random) :
  wellPlaced (blocks s) -> wellPlaced (blocks (fst (timerTick s g))).
Proof.
  intros H. unfold SumGame.timerTick.
  destruct (timerRunning s); [| exact H].
  destruct (timeLeft s <=? 0)%float; [| exact H].
  pose proof (addNewRow_wellPlaced s g H) as H1.
  destruct (addNewRow s g) as [s1 g1]. exact H1.
Qed.

Lemma startGame_blocks (m : GameMode) (s : State) (g : Random) :
  blocks (fst (startGame m s g)) = map (initialTile toString36 g) (seq 0 24).
Proof. reflexivity. Qed.

Lemma initial_positions (g : Random) :
  map position (map (initialTile toString36 g) (seq 0 24))
  = [(6, 0); (6, 1); (6, 2); (6, 3); (6, 4); (6, 5);
     (7, 0); (7, 1); (7, 2); (7, 3); (7, 4); (7, 5);
     (8, 0); (8, 1); (8, 2); (8, 3); (8, 4); (8, 5);
     (9, 0); (9, 1); (9, 2); (9, 3); (9, 4); (9, 5)].
Proof. reflexivity. Qed.

Lemma initial_positions_NoDup (g : Random) :
  NoDup (map position (map (initialTile toString36 g) (seq 0 24))).
Proof.
  rewrite initial_positions.
  repeat (constructor; [cbn [In]; intuition discriminate |]). constructor.
Qed.

Lemma startGame_wellPlaced (m : GameMode) (s : State) (g : Random) :
  wellPlaced (blocks (fst (startGame m s g))).
Proof.
  rewrite startGame_blocks. split; [apply initial_positions_NoDup |].
  rewrite Forall_forall. intros b Hb.
  assert (Hp : In (position b)
                  (map position (map (initialTile toString36 g) (seq 0 24))))
    by (apply in_map; exact Hb).
  rewrite initial_positions in Hp. unfold position in Hp. cbn [In] in Hp.
  unfold GRID_ROWS.
  repeat (destruct Hp as [Hp | Hp]; [inversion Hp; lia |]). contradiction.
Qed.

Lemma step_wellPlaced (e : Event) (s : State) (g : Random) :
  wellPlaced (blocks s) -> wellPlaced (blocks (fst (step e s g))).
Proof.
  intros H. unfold SumGame.step.
  assert (H1 : wellPlaced (blocks (fst (handle e s g)))).
  { destruct e as [m | i | | | |]; cbn [SumGame.handle fst].
    - apply startGame_wellPlaced.
    - destruct (handleBlockClick_frame i s) as (_ & E & _). rewrite E. exact H.
    - apply timerTick_wellPlaced. exact H.
    - exact H.
    - exact H.
    - exact H. }
  destruct (handle e s g) as [s1 g1]. cbn [fst] in H1.
  apply checkSum_wellPlaced. exact H1.
Qed.

(** C8: in every reachable state no two tiles of the board are in the same
    cell: the list of the tiles' (row, column) pairs has no repetition. *)
Theorem cells_distinct (s : State) (g : Random) :
  reachable s g -> NoDup (map position (blocks s)).
Proof.
  intros H.
  apply (reachableVia_invariant (fun _ _ => True)
           (fun s => wellPlaced (blocks s))) with (g := g); [| | exact H].
  - split; constructor.
  - intros e s0 g0 H0 _. apply step_wellPlaced. exact H0.
Qed.

(** *** The selection *)

Lemma includes_In (x : string) (l : list string) :
  includes x l = true <-> In x l.
Proof.
  unfold includes. rewrite existsb_exists. split.
  - intros [y [Hy E]]. apply String.eqb_eq in E. subst y. exact Hy.
  - intros H. exists x. split; [exact H | apply String.eqb_refl].
Qed.

Lemma includes_not_In (x : string) (l : list string) :
  includes x l = false <-> ~ In x l.
Proof.
  rewrite <- includes_In. destruct (includes x l); split; congruence.
Qed.

Lemma addNewRow_ids (s : State) (g : Random) :
  incl (map id (blocks s)) (map id (blocks (fst (addNewRow s g)))).
Proof.
  unfold SumGame.addNewRow.
  destruct (existsb _ _); [apply incl_refl |].
  destruct (makeRow toString36 (GRID_ROWS - 1) columns g) as [newRow g1].
  cbn [fst setBlocks blocks].
  rewrite map_app, map_map. cbn [shiftUp id].
  apply incl_appl. apply incl_refl.
Qed.

Lemma checkSum_selectionOnBoard (s : State) (g : Random) :
  selectionOnBoard s -> selectionOnBoard (fst (checkSum s g)).
Proof.
  intros H. unfold SumGame.checkSum, selectionOnBoard.
  destruct (_ && _).
  - destruct (generateTarget g) as [t g1].
    destruct (isClassic (mode s)); [| apply incl_nil_l].
    match goal with
    | |- incl (selectedIds (fst (addNewRow ?m ?h))) _ =>
        pose proof (addNewRow_frame m h) as F; cbv zeta in F
    end.
    destruct F as (_ & E & _). rewrite E. apply incl_nil_l.
  - destruct (currentSum s >? targetSum s); [apply incl_nil_l | exact H].
Qed.

Lemma timerTick_selectionOnBoard (s : State) (g : Random) :
  selectionOnBoard s -> selectionOnBoard (fst (timerTick s g)).
Proof.
  intros H. unfold SumGame.timerTick, selectionOnBoard.
  destruct (timerRunning s); [| exact H].
  destruct (timeLeft s <=? 0)%float; [| exact H].
  pose proof (addNewRow_ids s g) as Hids.
  pose proof (addNewRow_frame s g) as F. cbv zeta in F.
  destruct F as (_ & E & _).
  destruct (addNewRow s g) as [s1 g1]. cbn [fst] in *.
  cbn [setTimeLeft selectedIds blocks]. rewrite E.
  eapply incl_tran; [exact H | exact Hids].
Qed.

Lemma handleBlockClick_selectionOnBoard (i : string) (s : State) :
  In i (map id (blocks s)) ->
  selectionOnBoard s -> selectionOnBoard (handleBlockClick i s).
Proof.
  intros Hi H. unfold handleBlockClick, selectionOnBoard.
  destruct (isGameOver s || isPaused s); [exact H |].
  destruct (includes i (selectedIds s)); cbn [setSelectedIds selectedIds blocks].
  - intros j Hj. apply filter_In in Hj. apply H. tauto.
  - apply incl_app; [exact H |]. intros j [Hj | []]. subst j. exact Hi.
Qed.

Lemma startGame_selectedIds (m : GameMode) (s : State) (g : Random) :
  selectedIds (fst (startGame m s g)) = [].
Proof. reflexivity. Qed.

Lemma step_selectionOnBoard (e : Event) (s : State) (g : Random) :
  clickOnBoard s e ->
  selectionOnBoard s -> selectionOnBoard (fst (step e s g)).
Proof.
  intros Hok H. unfold SumGame.step.
  assert (H1 : selectionOnBoard (fst (handle e s g))).
  { destruct e as [m | i | | | |]; cbn [SumGame.handle fst].
    - unfold selectionOnBoard. rewrite startGame_selectedIds. apply incl_nil_l.
    - apply handleBlockClick_selectionOnBoard; assumption.
    - apply timerTick_selectionOnBoard. exact H.
    - exact H.
    - exact H.
    - exact H. }
  destruct (handle e s g) as [s1 g1]. cbn [fst] in H1.
  apply checkSum_selectionOnBoard. exact H1.
Qed.

(** C6, as the code has it: [handleBlockClick] changes nothing when the game
    is over or paused; otherwise it toggles the id in the selection and
    changes nothing else, whether or not the id is the id of a tile on the
    board (it never looks at the board).  Along every run in which each click
    is on a tile that is on the board, every selected id is the id of a tile
    on the board. *)
Theorem handleBlockClick_toggle :
  (forall i s, isGameOver s || isPaused s = true -> handleBlockClick i s = s)
  /\ (forall i s, isGameOver s || isPaused s = false ->
        let s' := handleBlockClick i s in
        (In i (selectedIds s') <-> ~ In i (selectedIds s))
        /\ (forall j, j <> i -> (In j (selectedIds s') <-> In j (selectedIds s)))
        /\ s' = setSelectedIds (selectedIds s') s)
  /\ (forall s g, reachableVia clickOnBoard s g -> selectionOnBoard s).
Proof.
  split; [| split].
  - intros i s H. unfold handleBlockClick. rewrite H. reflexivity.
  - intros i s H. unfold handleBlockClick. rewrite H.
    destruct (includes i (selectedIds s)) eqn:E;
      cbn [setSelectedIds selectedIds].
    + apply includes_In in E. split; [| split; [| reflexivity]].
      * rewrite filter_In, String.eqb_refl. cbn [negb]. split.
        -- intros [_ Hf]. discriminate.
        -- intros Hn. contradiction.
      * intros j Hj. rewrite filter_In.
        apply String.eqb_neq in Hj. rewrite Hj. cbn [negb]. tauto.
    + apply includes_not_In in E. split; [| split; [| reflexivity]].
      * rewrite in_app_iff. cbn [In]. tauto.
      * intros j Hj. rewrite in_app_iff. cbn [In].
        split; [intros [Hin | [Heq | []]]; [exact Hin | congruence] | tauto].
  - intros s g H.
    apply (reachableVia_invariant clickOnBoard selectionOnBoard)
      with (g := g); [| | exact H].
    + intros i [].
    + intros e s0 g0 H0 Hok. apply step_selectionOnBoard; assumption.
Qed.

(** *** Starting a game *)

Lemma startGame_isPaused (m : GameMode) (s : State) (g : Random) :
  isPaused (fst (startGame m s g)) = isPaused s.
Proof. reflexivity. Qed.


(** ** Further properties of the engine *)

(** *** The random source along a run *)

Lemma makeRow_random (r : Z) (cols : list Z) :
  forall g, draws (snd (makeRow toString36 r cols g)) = draws g
            /\ next (snd (makeRow toString36 r cols g))
               = (2 * List.length cols + next g)%nat.
Proof.
  induction cols as [| c cs IH]; intros g; [split; reflexivity |].
  cbn [SumGame.makeRow generateId getRandomValue Math_random].
  specialize (IH {| draws := draws g; next := S (S (next g)) |}).
  destruct (makeRow toString36 r cs _) as [rest g3].
  cbn [fst snd draws next List.length] in *.
  destruct IH as [Hd Hn]. split; [exact Hd | lia].
Qed.

Lemma makeRows_draws (rows : list Z) :
  forall g, draws (snd (makeRows toString36 rows g)) = draws g.
Proof.
  induction rows as [| r rs IH]; intros g; [reflexivity |].
  cbn [SumGame.makeRows].
  pose proof (makeRow_random r columns g) as [Hd _].
  destruct (makeRow toString36 r columns g) as [here g1].
  specialize (IH g1).
  destruct (makeRows toString36 rs g1) as [below g2].
  cbn [snd] in *. congruence.
Qed.

Lemma addNewRow_draws (s : State) (g : Random) :
  draws (snd (addNewRow s g)) = draws g.
Proof.
  unfold SumGame.addNewRow.
  destruct (existsb _ _); [reflexivity |].
  pose proof (makeRow_random (GRID_ROWS - 1) columns g) as [Hd _].
  destruct (makeRow toString36 (GRID_ROWS - 1) columns g) as [newRow g1].
  exact Hd.
Qed.

Lemma checkSum_draws (s : State) (g : Random) :
  draws (snd (checkSum s g)) = draws g.
Proof.
  unfold SumGame.checkSum.
  destruct (_ && _).
  - cbn [generateTarget Math_random].
    destruct (isClassic (mode s)); [| reflexivity].
    rewrite addNewRow_draws. reflexivity.
  - destruct (currentSum s >? targetSum s); reflexivity.
Qed.

Lemma handle_draws (e : Event) (s : State) (g : Random) :
  draws (snd (handle e s g)) = draws g.
Proof.
  destruct e as [m | i | | | |]; cbn [SumGame.handle snd].
  - unfold SumGame.startGame. cbn [generateTarget Math_random].
    pose proof (makeRows_draws initialRowIndices
                  {| draws := draws g; next := S (next g) |}) as Hd.
    destruct (makeRows toString36 initialRowIndices _) as [bs g1].
    exact Hd.
  - reflexivity.
  - unfold SumGame.timerTick.
    destruct (timerRunning s); [| reflexivity].
    destruct (timeLeft s <=? 0)%float; [| reflexivity].
    pose proof (addNewRow_draws s g) as Hd.
    destruct (addNewRow s g) as [s1 g1]. exact Hd.
  - reflexivity.
  - reflexivity.
  - reflexivity.
Qed.

Lemma step_draws (e : Event) (s : State) (g : Random) :
  draws (snd (step e s g)) = draws g.
Proof.
  unfold SumGame.step.
  pose proof (handle_draws e s g) as Hd.
  destruct (handle e s g) as [s1 g1]. cbn [snd] in Hd.
  rewrite checkSum_draws. exact Hd.
Qed.

Lemma unitDraws_same (g h : Random) :
  draws h = draws g -> unitDraws h -> unitDraws g.
Proof. intros E H n. rewrite <- E. apply H. Qed.

(** An invariant may rely on the draws being in the unit interval. *)
Lemma reachable_invariant_unit (P : State -> Prop) :
  P initialState ->
  (forall e s g, unitDraws g -> P s -> P (fst (step e s g))) ->
  forall s g, reachable s g -> unitDraws g -> P s.
Proof.
  intros Hinit Hstep s g H.
  induction H as [g | e s g _ IH _]; intros Hg; [exact Hinit |].
  assert (Hg0 : unitDraws g)
    by (apply (unitDraws_same g _ (step_draws e s g)); exact Hg).
  apply Hstep; [exact Hg0 | exact (IH Hg0)].
Qed.

(** *** Targets, and states with nothing left to check *)

Lemma settled_checkSum (s : State) (g : Random) :
  settled s -> checkSum s g = (s, g).
Proof.
  intros [Hle Hlt]. unfold SumGame.checkSum.
  replace (currentSum s >? targetSum s) with false
    by (symmetry; rewrite Z.gtb_ltb; apply Z.ltb_ge; exact Hle).
  destruct (selectedIds s) as [| i l] eqn:E; [reflexivity |].
  replace (currentSum s =? targetSum s) with false;
    [rewrite andb_false_r; reflexivity |].
  symmetry. apply Z.eqb_neq.
  assert (currentSum s < targetSum s) by (apply Hlt; discriminate). lia.
Qed.

Lemma checkSum_settles (s : State) (g : Random) :
  unitDraws g -> 0 <= targetSum s ->
  settled (fst (checkSum s g))
  /\ (targetSum (fst (checkSum s g)) = targetSum s
      \/ 10 <= targetSum (fst (checkSum s g)) <= 25).
Proof.
  intros Hg Ht.
  pose proof (generateTarget_range g Hg) as Hrange.
  unfold SumGame.checkSum.
  destruct ((0 <? Z.of_nat (List.length (selectedIds s)))
            && (currentSum s =? targetSum s)) eqn:Ematch.
  - destruct (generateTarget g) as [t g1]. cbn [fst] in Hrange.
    assert (Hm : forall m : State,
               selectedIds m = [] -> targetSum m = t ->
               settled m /\ (targetSum m = targetSum s
                             \/ 10 <= targetSum m <= 25)).
    { intros m Hsel Htm. split; [| right; lia].
      split; [rewrite (currentSum_no_selection m Hsel); lia |].
      intros Hne. contradiction. }
    destruct (isClassic (mode s)); [| apply Hm; reflexivity].
    match goal with
    | |- context [addNewRow ?m ?k] =>
        pose proof (addNewRow_frame m k) as F; cbv zeta in F
    end.
    destruct F as (_ & E1 & E2 & _). apply Hm; [exact E1 | exact E2].
  - destruct (currentSum s >? targetSum s) eqn:Ebust; cbn [fst].
    + split; [| left; reflexivity].
      split; [rewrite currentSum_no_selection by reflexivity;
              cbn [setSelectedIds targetSum]; exact Ht |].
      intros Hne. contradiction.
    + split; [| left; reflexivity].
      assert (Hle : currentSum s <= targetSum s).
      { rewrite Z.gtb_ltb in Ebust. apply Z.ltb_ge in Ebust. exact Ebust. }
      split; [exact Hle |].
      intros Hne. rewrite (selection_nonempty _ Hne) in Ematch.
      cbn [andb] in Ematch. apply Z.eqb_neq in Ematch. lia.
Qed.

Lemma handle_targetSum (e : Event) (s : State) (g : Random) :
  unitDraws g ->
  targetSum (fst (handle e s g)) = targetSum s
  \/ 10 <= targetSum (fst (handle e s g)) <= 25.
Proof.
  intros Hg.
  destruct e as [m | i | | | |]; cbn [SumGame.handle fst].
  - right. exact (generateTarget_range g Hg).
  - left. apply (handleBlockClick_frame i s).
  - left. apply (timerTick_frame s g).
  - left. reflexivity.
  - left. reflexivity.
  - left. reflexivity.
Qed.

Lemma step_settles (e : Event) (s : State) (g : Random) :
  unitDraws g ->
  (targetSum s = 0 \/ 10 <= targetSum s <= 25) ->
  settled (fst (step e s g))
  /\ (targetSum (fst (step e s g)) = 0
      \/ 10 <= targetSum (fst (step e s g)) <= 25).
Proof.
  intros Hg Ht. unfold SumGame.step.
  pose proof (handle_targetSum e s g Hg) as H1.
  pose proof (handle_draws e s g) as Hd.
  destruct (handle e s g) as [s1 g1]. cbn [fst snd] in H1, Hd.
  assert (Hg1 : unitDraws g1).
  { intros n. rewrite Hd. apply Hg. }
  assert (Ht1 : targetSum s1 = 0 \/ 10 <= targetSum s1 <= 25)
    by (destruct H1 as [E | H1]; [rewrite E; exact Ht | right; exact H1]).
  destruct (checkSum_settles s1 g1 Hg1 ltac:(lia)) as [Hs [E | Hr]].
  - split; [exact Hs | rewrite E; exact Ht1].
  - split; [exact Hs | right; exact Hr].
Qed.

Lemma reachable_settled (s : State) (g : Random) :
  reachable s g -> unitDraws g ->
  settled s /\ (targetSum s = 0 \/ 10 <= targetSum s <= 25).
Proof.
  apply (reachable_invariant_unit
           (fun s => settled s
                     /\ (targetSum s = 0 \/ 10 <= targetSum s <= 25))).
  - split; [split; [cbv; discriminate | intros H; contradiction] |].
    left. reflexivity.
  - intros e s0 g0 Hg [_ Ht]. apply step_settles; assumption.
Qed.

(** X7: in every state a run reaches, the effect that checks the sum has
    already done its work: the selected values sum to at most the target and,
    when something is selected, to less than the target; and the target is 0
    (no game started yet) or lies in 10..25. *)
Theorem selection_below_target (s : State) (g : Random) :
  reachable s g -> unitDraws g ->
  currentSum s <= targetSum s
  /\ (selectedIds s <> [] -> currentSum s < targetSum s)
  /\ (targetSum s = 0 \/ 10 <= targetSum s <= 25)
  /\ checkSum s g = (s, g).
Proof.
  intros H Hg. destruct (reachable_settled s g H Hg) as [Hs Ht].
  destruct Hs as [Hle Hlt].
  split; [exact Hle |]. split; [exact Hlt |]. split; [exact Ht |].
  apply settled_checkSum. split; assumption.
Qed.

(** *** Input that is ignored *)

Lemma timerTick_stopped (s : State) (g : Random) :
  timerRunning s = false -> timerTick s g = (s, g).
Proof. intros H. unfold SumGame.timerTick. rewrite H. reflexivity. Qed.

(** X8: while the game is over or paused a click on a tile changes nothing,
    and while the timer is not running (classic mode, menu, game over, pause)
    a firing of the interval changes nothing: the whole step, handler and
    effect, returns the state and the random source as they were. *)
Theorem ignored_input (s : State) (g : Random) :
  reachable s g -> unitDraws g ->
  (forall i, isGameOver s || isPaused s = true ->
             step (BlockClick i) s g = (s, g))
  /\ (timerRunning s = false -> step Tick s g = (s, g)).
Proof.
  intros H Hg. destruct (reachable_settled s g H Hg) as [Hs _].
  split.
  - intros i Hoff. unfold SumGame.step, SumGame.handle, handleBlockClick.
    rewrite Hoff. apply settled_checkSum. exact Hs.
  - intros Hstop. unfold SumGame.step, SumGame.handle.
    rewrite (timerTick_stopped s g Hstop). apply settled_checkSum. exact Hs.
Qed.

(** *** The end of a game *)

Lemma settled_sameGame (s s' : State) :
  sameGame s s' -> settled s -> settled s'.
Proof.
  intros (Eb & Esel & Et & _) [Hle Hlt].
  unfold settled, currentSum in *. rewrite Eb, Esel, Et.
  split; assumption.
Qed.

Lemma game_over_step (e : Event) (s : State) (g : Random) :
  isGameOver s = true -> settled s -> withinSession e ->
  sameGame s (fst (step e s g)) /\ snd (step e s g) = g.
Proof.
  intros Hover Hs He.
  assert (Hh : sameGame s (fst (handle e s g)) /\ snd (handle e s g) = g).
  { destruct e as [m | i | | | |]; cbn [SumGame.handle fst snd].
    - contradiction.
    - unfold handleBlockClick. rewrite Hover. cbn [orb].
      repeat split; reflexivity.
    - rewrite timerTick_stopped;
        [repeat split; reflexivity |].
      unfold timerRunning. rewrite Hover, andb_false_r. reflexivity.
    - repeat split; reflexivity.
    - repeat split; reflexivity.
    - repeat split; reflexivity. }
  unfold SumGame.step.
  destruct (handle e s g) as [s1 g1]. cbn [fst snd] in Hh.
  destruct Hh as [Hsame Hg1]. subst g1.
  rewrite (settled_checkSum s1 g (settled_sameGame s s1 Hsame Hs)).
  split; [exact Hsame | reflexivity].
Qed.

(** X9: the end of a game is final.  From a reachable state in which the game
    is over, no sequence of clicks, timer firings, pause, resume and menu
    events changes the board, the selection, the target, the score or the
    time left, clears the game-over flag or consumes a random draw; only the
    start of a new game does. *)
Theorem game_over_is_final (s : State) (g : Random) :
  reachable s g -> unitDraws g -> isGameOver s = true ->
  forall es, Forall withinSession es ->
             sameGame s (fst (run es s g))
             /\ isGameOver (fst (run es s g)) = true
             /\ snd (run es s g) = g.
Proof.
  intros H Hg Hover es Hes.
  destruct (reachable_settled s g H Hg) as [Hs _]. clear H Hg.
  assert (Hgen : forall s0, sameGame s s0 -> settled s0 ->
                   sameGame s (fst (run es s0 g)) /\ snd (run es s0 g) = g).
  { induction Hes as [| e es He _ IH]; intros s0 Hsame Hs0;
      cbn [SumGame.run fst snd]; [split; [exact Hsame | reflexivity] |].
    assert (Hover0 : isGameOver s0 = true).
    { destruct Hsame as (_ & _ & _ & _ & _ & E). rewrite E. exact Hover. }
    destruct (game_over_step e s0 g Hover0 Hs0 He) as [Hstep Hg1].
    destruct (step e s0 g) as [s1 g1]. cbn [fst snd] in Hstep, Hg1. subst g1.
    apply IH.
    - destruct Hsame as (A1 & A2 & A3 & A4 & A5 & A6).
      destruct Hstep as (B1 & B2 & B3 & B4 & B5 & B6).
      repeat split; congruence.
    - exact (settled_sameGame s0 s1 Hstep Hs0). }
  destruct (Hgen s ltac:(repeat split; reflexivity) Hs) as [Hsame Hrand].
  split; [exact Hsame |]. split; [| exact Hrand].
  destruct Hsame as (_ & _ & _ & _ & _ & E). rewrite E. exact Hover.
Qed.

(** *** What the generators return *)

Lemma floor_of_sixteenths (k n : Z) :
  0 < n -> Qfloor ((k # Z.to_pos n) * inject_Z n) = k.
Proof.
  intros Hn. unfold Qfloor, Qmult, inject_Z. cbn [Qnum Qden].
  rewrite Pos.mul_1_r, Z2Pos.id by exact Hn.
  apply Z.div_mul. lia.
Qed.

Lemma constant_unitDraws (k n : Z) (i : nat) :
  0 <= k < n -> unitDraws {| draws := fun _ => k # Z.to_pos n; next := i |}.
Proof.
  intros Hk m. cbn [draws]. unfold Qle, Qlt. cbn [Qnum Qden].
  rewrite Z2Pos.id by lia. split; lia.
Qed.

(** X1: [generateTarget] returns exactly the integers 10..25: every result
    lies in that range when the draw is in the unit interval, and every
    integer of the range is the result for some such draw. *)
Theorem generateTarget_values (k : Z) :
  (exists g, unitDraws g /\ fst (generateTarget g) = k) <-> 10 <= k <= 25.
Proof.
  split.
  - intros [g [Hg E]]. rewrite <- E. apply generateTarget_range. exact Hg.
  - intros Hk.
    exists {| draws := fun _ => (k - 10) # Z.to_pos 16; next := 0 |}.
    split; [apply constant_unitDraws; lia |].
    unfold generateTarget, Math_random. cbn [fst draws next].
    rewrite (floor_of_sixteenths (k - 10) 16) by lia. lia.
Qed.


(** *** A row advancement that succeeds *)

Lemma existsb_shifted (bs : list Block) :
  existsb (fun b => row b <? 0) (map shiftUp bs)
  = existsb (fun b => row b <=? 0) bs.
Proof.
  induction bs as [| b bs IH]; [reflexivity |].
  cbn [map existsb shiftUp row]. rewrite IH. f_equal.
  destruct (row b <=? 0) eqn:E.
  - apply Z.leb_le in E. apply Z.ltb_lt. lia.
  - apply Z.leb_gt in E. apply Z.ltb_ge. lia.
Qed.

Lemma newRow_tiles (g : Random) :
  makeRow toString36 (GRID_ROWS - 1) columns g
  = (map (newTile toString36 g) (seq 0 6),
     {| draws := draws g; next := 12 + next g |}).
Proof. reflexivity. Qed.

Lemma no_tile_at_top (bs : list Block) :
  (forall b, In b bs -> 1 <= row b) ->
  existsb (fun b => row b <=? 0) bs = false.
Proof.
  intros H. destruct (existsb _ bs) eqn:E; [| reflexivity].
  apply existsb_exists in E. destruct E as [b [Hb Hrow]].
  apply Z.leb_le in Hrow. specialize (H b Hb). lia.
Qed.


(** *** The warning indicator *)

Lemma existsb_weaken {A : Type} (p q : A -> bool) (l : list A) :
  (forall x, p x = true -> q x = true) ->
  existsb p l = true -> existsb q l = true.
Proof.
  intros Hpq H. apply existsb_exists in H. destruct H as [x [Hx Hp]].
  apply existsb_exists. exists x. split; [exact Hx | apply Hpq; exact Hp].
Qed.

Lemma addNewRow_test (s : State) (g : Random) :
  addNewRow s g
  = if existsb (fun b => row b <=? 0) (blocks s)
    then (setIsGameOver true s, g)
    else (setBlocks (map shiftUp (blocks s)
                     ++ map (newTile toString36 g) (seq 0 6)) s,
          {| draws := draws g; next := 12 + next g |}).
Proof.
  unfold SumGame.addNewRow. rewrite existsb_shifted, newRow_tiles.
  reflexivity.
Qed.

Lemma shifted_at_top (bs : list Block) :
  existsb (fun b => row b <=? 0) (map shiftUp bs)
  = existsb (fun b => row b <=? 1) bs.
Proof.
  induction bs as [| b bs IH]; [reflexivity |].
  cbn [map existsb shiftUp row]. rewrite IH. f_equal.
  destruct (row b <=? 1) eqn:E.
  - apply Z.leb_le in E. apply Z.leb_le. lia.
  - apply Z.leb_gt in E. apply Z.leb_gt. lia.
Qed.

(** X4: the warning indicator announces the end of the game two row
    advancements ahead.  After two row advancements in a row the game is over
    exactly when it was over before or the indicator was on: with the
    indicator off (every tile in row 2 or below) the board survives two
    advancements, and with it on the second advancement at the latest ends
    the game. *)
Theorem warning_two_rows_ahead (s : State) (g : Random) :
  isGameOver (fst (addNewRow (fst (addNewRow s g)) (snd (addNewRow s g))))
  = isGameOver s || overflowWarning s.
Proof.
  unfold overflowWarning.
  rewrite (addNewRow_test s g).
  destruct (existsb (fun b => row b <=? 0) (blocks s)) eqn:Etop;
    cbn [fst snd].
  - rewrite addNewRow_test. cbn [setIsGameOver blocks]. rewrite Etop.
    cbn [fst isGameOver].
    rewrite (existsb_weaken (fun b => row b <=? 0) (fun b => row b <=? 1)
               (blocks s)); [rewrite orb_true_r; reflexivity | | exact Etop].
    intros b Hb. apply Z.leb_le in Hb. apply Z.leb_le. lia.
  - rewrite addNewRow_test. cbn [setBlocks blocks].
    rewrite existsb_app, shifted_at_top.
    replace (existsb (fun b => row b <=? 0)
               (map (newTile toString36 g) (seq 0 6))) with false
      by reflexivity.
    rewrite orb_false_r.
    destruct (existsb (fun b => row b <=? 1) (blocks s));
      cbn [fst setIsGameOver setBlocks isGameOver].
    + rewrite orb_true_r. reflexivity.
    + rewrite orb_false_r. reflexivity.
Qed.

(** *** Tiles stay inside the grid *)

Lemma reachable_wellPlaced (s : State) (g : Random) :
  reachable s g -> wellPlaced (blocks s).
Proof.
  apply (reachableVia_invariant (fun _ _ => True)
           (fun s => wellPlaced (blocks s))).
  - split; constructor.
  - intros e s0 g0 H0 _. apply step_wellPlaced. exact H0.
Qed.

Lemma newRow_inGrid (g : Random) :
  Forall inGrid (map (newTile toString36 g) (seq 0 6)).
Proof.
  rewrite Forall_map.
  repeat (constructor; [unfold inGrid; cbn; lia |]). constructor.
Qed.

Lemma addNewRow_inGrid (s : State) (g : Random) :
  Forall inGrid (blocks s) -> Forall inGrid (blocks (fst (addNewRow s g))).
Proof.
  intros H. rewrite addNewRow_test.
  destruct (existsb (fun b => row b <=? 0) (blocks s)) eqn:Etop; [exact H |].
  cbn [fst setBlocks blocks].
  apply Forall_app. split; [| apply newRow_inGrid].
  rewrite Forall_map, Forall_forall in *. intros b Hb.
  specialize (H b Hb). unfold inGrid in *. cbn [shiftUp row col].
  assert (Hrow : (row b <=? 0) = false).
  { destruct (row b <=? 0) eqn:E; [| reflexivity].
    assert (existsb (fun b => row b <=? 0) (blocks s) = true)
      by (apply existsb_exists; exists b; split; assumption).
    congruence. }
  apply Z.leb_gt in Hrow. lia.
Qed.

Lemma checkSum_inGrid (s : State) (g : Random) :
  Forall inGrid (blocks s) -> Forall inGrid (blocks (fst (checkSum s g))).
Proof.
  intros H. unfold SumGame.checkSum.
  destruct (_ && _).
  - destruct (generateTarget g) as [t g1].
    assert (Hf : Forall inGrid
                   (filter (fun b => negb (includes (id b) (selectedIds s)))
                           (blocks s))).
    { rewrite Forall_forall in *. intros b Hb.
      apply filter_In in Hb. apply H. tauto. }
    destruct (isClassic (mode s)); [| exact Hf].
    apply addNewRow_inGrid. exact Hf.
  - destruct (currentSum s >? targetSum s); exact H.
Qed.

Lemma startGame_inGrid (m : GameMode) (s : State) (g : Random) :
  Forall inGrid (blocks (fst (startGame m s g))).
Proof.
  rewrite startGame_blocks, Forall_map.
  repeat (constructor; [unfold inGrid; cbn; lia |]). constructor.
Qed.

Lemma step_inGrid (e : Event) (s : State) (g : Random) :
  Forall inGrid (blocks s) -> Forall inGrid (blocks (fst (step e s g))).
Proof.
  intros H. unfold SumGame.step.
  assert (H1 : Forall inGrid (blocks (fst (handle e s g)))).
  { destruct e as [m | i | | | |]; cbn [SumGame.handle fst].
    - apply startGame_inGrid.
    - destruct (handleBlockClick_frame i s) as (_ & E & _). rewrite E. exact H.
    - unfold SumGame.timerTick.
      destruct (timerRunning s); [| exact H].
      destruct (timeLeft s <=? 0)%float; [| exact H].
      pose proof (addNewRow_inGrid s g H) as H1.
      destruct (addNewRow s g) as [s1 g1]. exact H1.
    - exact H.
    - exact H.
    - exact H. }
  destruct (handle e s g) as [s1 g1]. cbn [fst] in H1.
  apply checkSum_inGrid. exact H1.
Qed.

Lemma inGrid_allCells (b : Block) : inGrid b -> In (position b) allCells.
Proof.
  intros [Hr Hc]. unfold allCells, position, columns.
  unfold GRID_ROWS, GRID_COLS in *.
  apply in_prod; apply in_map_iff.
  - exists (Z.to_nat (row b)). split; [lia | apply in_seq; lia].
  - exists (Z.to_nat (col b)). split; [lia | apply in_seq; lia].
Qed.

(** X5: in every reachable state each tile lies inside the grid (rows 0..9,
    columns 0..5), and the board holds at most 60 tiles. *)
Theorem tiles_in_grid (s : State) (g : Random) :
  reachable s g ->
  Forall inGrid (blocks s) /\ (List.length (blocks s) <= 60)%nat.
Proof.
  intros H.
  assert (Hin : Forall inGrid (blocks s)).
  { revert s g H.
    apply (reachableVia_invariant (fun _ _ => True)
             (fun s => Forall inGrid (blocks s))).
    - constructor.
    - intros e s0 g0 H0 _. apply step_inGrid. exact H0. }
  split; [exact Hin |].
  destruct (reachable_wellPlaced s g H) as [Hnd _].
  rewrite <- (length_map position).
  change 60%nat with (List.length allCells).
  apply NoDup_incl_length; [exact Hnd |].
  intros q Hq. apply in_map_iff in Hq. destruct Hq as [b [Eq Hb]].
  subst q. apply inGrid_allCells.
  rewrite Forall_forall in Hin. apply Hin. exact Hb.
Qed.

(** *** Tile values *)






(** *** The selection has no repetition *)

Lemma handleBlockClick_NoDup (i : string) (s : State) :
  NoDup (selectedIds s) -> NoDup (selectedIds (handleBlockClick i s)).
Proof.
  intros H. unfold handleBlockClick.
  destruct (isGameOver s || isPaused s); [exact H |].
  destruct (includes i (selectedIds s)) eqn:E;
    cbn [setSelectedIds selectedIds].
  - apply NoDup_filter. exact H.
  - apply includes_not_In in E.
    apply NoDup_app; [exact H | repeat constructor; intros [] |].
    intros j Hj [Hi | []]. subst j. exact (E Hj).
Qed.

Lemma checkSum_selectedIds (s : State) (g : Random) :
  selectedIds (fst (checkSum s g)) = []
  \/ selectedIds (fst (checkSum s g)) = selectedIds s.
Proof.
  destruct (checkSum_result s g) as [[E _] | E];
    [left; exact E | right; rewrite (E g); reflexivity].
Qed.

(** X10: in every reachable state the selection lists no id twice, so the
    number of selected ids that the score is computed from counts each
    selected tile once. *)
Theorem selection_NoDup (s : State) (g : Random) :
  reachable s g -> NoDup (selectedIds s).
Proof.
  apply (reachableVia_invariant (fun _ _ => True)
           (fun s => NoDup (selectedIds s))).
  - constructor.
  - intros e s0 g0 H0 _. unfold SumGame.step.
    assert (H1 : NoDup (selectedIds (fst (handle e s0 g0)))).
    { destruct e as [m | i | | | |]; cbn [SumGame.handle fst].
      - rewrite startGame_selectedIds. constructor.
      - apply handleBlockClick_NoDup. exact H0.
      - destruct (timerTick_frame s0 g0) as (_ & E & _). rewrite E. exact H0.
      - exact H0.
      - exact H0.
      - exact H0. }
    destruct (handle e s0 g0) as [s1 g1]. cbn [fst] in H1.
    destruct (checkSum_selectedIds s1 g1) as [E | E]; rewrite E;
      [constructor | exact H1].
Qed.

(** *** Clicking a tile twice *)



(** *** Counting the tiles a match removes *)

Lemma ids_filter (keep : Block -> bool) (bs : list Block) :
  NoDup (map id bs) -> NoDup (map id (filter keep bs)).
Proof.
  induction bs as [| b bs IH]; cbn [map filter]; intros H; [exact H |].
  inversion H as [| q qs Hfresh Hrest]; subst.
  destruct (keep b); [| exact (IH Hrest)].
  cbn [map]. constructor; [| exact (IH Hrest)].
  intros Hin. apply Hfresh.
  apply in_map_iff in Hin. destruct Hin as [b' [Hb' Hin]].
  apply filter_In in Hin. apply in_map_iff. exists b'. tauto.
Qed.

Lemma filter_split_length {A : Type} (keep : A -> bool) (l : list A) :
  (List.length (filter keep l)
   + List.length (filter (fun x => negb (keep x)) l))%nat
  = List.length l.
Proof.
  induction l as [| a l IH]; [reflexivity |].
  cbn [filter]. destruct (keep a); cbn [negb List.length]; lia.
Qed.

Lemma selected_tiles_count (sel : list string) (bs : list Block) :
  NoDup (map id bs) -> NoDup sel -> incl sel (map id bs) ->
  List.length (filter (fun b => includes (id b) sel) bs) = List.length sel.
Proof.
  intros Hids Hsel Hincl.
  rewrite <- (length_map id).
  apply Nat.le_antisymm.
  - apply NoDup_incl_length; [apply ids_filter; exact Hids |].
    intros j Hj. apply in_map_iff in Hj. destruct Hj as [b [Eb Hb]].
    apply filter_In in Hb. destruct Hb as [_ Hb].
    apply includes_In in Hb. subst j. exact Hb.
  - apply NoDup_incl_length; [exact Hsel |].
    intros j Hj. specialize (Hincl j Hj).
    apply in_map_iff in Hincl. destruct Hincl as [b [Eb Hb]].
    apply in_map_iff. exists b. split; [exact Eb |].
    apply filter_In. split; [exact Hb |].
    apply includes_In. rewrite Eb. exact Hj.
Qed.

(** X12: tile accounting of a match.  When the ids of the tiles are pairwise
    distinct and the selection lists each of its ids once and only ids of
    tiles on the board, a match removes as many tiles as ids are selected (the
    number the score counts); outside classic mode the board is left with the
    remaining tiles, and in classic mode, when no remaining tile is in the top
    row, six more are added. *)
Theorem match_tile_count (s : State) (g : Random) :
  selectedIds s <> [] ->
  currentSum s = targetSum s ->
  NoDup (map id (blocks s)) ->
  NoDup (selectedIds s) ->
  selectionOnBoard s ->
  let removed := List.length (selectedIds s) in
  let after := List.length (blocks (fst (checkSum s g))) in
  (isClassic (mode s) = false ->
     (after + removed)%nat = List.length (blocks s))
  /\ (isClassic (mode s) = true ->
      (forall b, In b (blocks s) ->
                 includes (id b) (selectedIds s) = false -> 1 <= row b) ->
      (after + removed)%nat = (List.length (blocks s) + 6)%nat).
Proof.
  intros Hne Hsum Hids Hsel Hon removed after.
  pose proof (selected_tiles_count _ _ Hids Hsel Hon) as Hcount.
  pose proof (filter_split_length
                (fun b => includes (id b) (selectedIds s)) (blocks s)) as Hsplit.
  unfold after, removed. rewrite checkSum_match by assumption.
  split.
  - intros Hc. rewrite Hc. cbn [fst afterMatch blocks]. lia.
  - intros Hc Hrows. rewrite Hc. rewrite addNewRow_test.
    rewrite no_tile_at_top.
    + cbn [fst setBlocks blocks afterMatch].
      rewrite length_app, !length_map, length_seq. lia.
    + cbn [afterMatch blocks]. intros b Hb.
      apply filter_In in Hb. destruct Hb as [Hb Hout].
      apply negb_true_iff in Hout. apply Hrows; assumption.
Qed.

(** *** A round of the timer *)

Lemma countdown_positive :
  forallb (fun n => negb (timeAfter n <=? 0)%float) (seq 0 101) = true.
Proof. vm_compute. reflexivity. Qed.

Lemma timeAfter_positive (n : nat) :
  (n <= 100)%nat -> (timeAfter n <=? 0)%float = false.
Proof.
  intros Hn. pose proof countdown_positive as H.
  rewrite forallb_forall in H. specialize (H n).
  rewrite in_seq in H. apply negb_true_iff. apply H. lia.
Qed.

Lemma timeAfter_101_expired : (timeAfter 101 <=? 0)%float = true.
Proof. vm_compute. reflexivity. Qed.

Lemma ticks_counting (s : State) (g : Random) :
  timerRunning s = true ->
  forall n, (n <= 101)%nat ->
            ticks toString36 n (setTimeLeft TIME_LIMIT s) g
            = (setTimeLeft (timeAfter n) s, g).
Proof.
  intros Hrun n. induction n as [| n IH]; intros Hn; [reflexivity |].
  cbn [SumGame.ticks]. rewrite IH by lia.
  unfold SumGame.timerTick.
  replace (timerRunning (setTimeLeft (timeAfter n) s)) with true
    by (symmetry; exact Hrun).
  cbn [setTimeLeft timeLeft].
  rewrite timeAfter_positive by lia.
  rewrite timeAfter_S. unfold countDown at 1.
  rewrite timeAfter_positive by lia. reflexivity.
Qed.

(** X13: a round of time mode lasts 102 firings of the interval, not 100.
    Starting with the time at [TIME_LIMIT] and the timer running, each of the
    first 101 firings only lowers the time left (the board, the score and the
    random source are untouched), and the 102nd advances the rows and puts
    the time back at [TIME_LIMIT]. *)
Theorem round_lasts_102_ticks (s : State) (g : Random) :
  timerRunning s = true ->
  (forall n, (n <= 101)%nat ->
             ticks toString36 n (setTimeLeft TIME_LIMIT s) g
             = (setTimeLeft (timeAfter n) s, g))
  /\ ticks toString36 102 (setTimeLeft TIME_LIMIT s) g
     = (setTimeLeft TIME_LIMIT (fst (addNewRow s g)), snd (addNewRow s g)).
Proof.
  intros Hrun. split; [apply ticks_counting; exact Hrun |].
  assert (E : ticks toString36 102 (setTimeLeft TIME_LIMIT s) g
              = let (s', g') := ticks toString36 101 (setTimeLeft TIME_LIMIT s) g
                in timerTick s' g') by reflexivity.
  rewrite E, (ticks_counting s g Hrun 101) by lia.
  unfold SumGame.timerTick.
  replace (timerRunning (setTimeLeft (timeAfter 101) s)) with true
    by (symmetry; exact Hrun).
  cbn [setTimeLeft timeLeft]. rewrite timeAfter_101_expired.
  rewrite !addNewRow_test. cbn [setTimeLeft blocks].
  destruct (existsb _ _); reflexivity.
Qed.

(** *** The time bonus *)

Lemma countdown_bonus :
  forallb (fun n => Math_ceil (timeAfter n) <=? 10) (seq 0 roundLength) = true.
Proof. vm_compute. reflexivity. Qed.

(** X14: in time mode the bonus of a match is an integer from 0 to 10.  In
    every reachable state the ceiling of the time left lies in 0..10, so a
    click that completes a match of [n] selected ids raises the score by
    [10 * n] plus that ceiling in time mode, which is at least [10 * n] and
    at most [10 * n + 10], and by exactly [10 * n] outside time mode. *)
Theorem match_score_bounds (s : State) (g : Random) (i : string) :
  reachable s g ->
  let s1 := handleBlockClick i s in
  selectedIds s1 <> [] ->
  currentSum s1 = targetSum s1 ->
  let n := Z.of_nat (List.length (selectedIds s1)) in
  let s' := fst (step (BlockClick i) s g) in
  0 <= Math_ceil (timeLeft s) <= 10
  /\ score s + 10 * n <= score s' <= score s + 10 * n + 10
  /\ (isTime (mode s) = true ->
      score s' = score s + 10 * n + Math_ceil (timeLeft s))
  /\ (isTime (mode s) = false -> score s' = score s + 10 * n).
Proof.
  intros H s1 Hne Hsum n s'.
  pose proof (timeLeft_countdown s g H) as Hc.
  assert (Hb : 0 <= Math_ceil (timeLeft s) <= 10).
  { destruct (onCountdown_checked _ Hc) as [_ Hlow].
    split; [exact Hlow |].
    destruct Hc as [k [Hk Et]]. rewrite Et.
    pose proof countdown_bonus as Hall.
    rewrite forallb_forall in Hall. specialize (Hall k).
    rewrite in_seq in Hall. apply Z.leb_le. apply Hall. lia. }
  destruct (handleBlockClick_frame i s) as (Em & _ & _ & Es & _ & Et & _).
  fold s1 in Em, Es, Et.
  assert (E : score s'
              = score s + n * 10
                + (if isTime (mode s) then Math_ceil (timeLeft s) else 0)).
  { unfold s', SumGame.step, SumGame.handle. fold s1.
    rewrite checkSum_match by assumption.
    rewrite <- Em, <- Es, <- Et.
    destruct (isClassic (mode s1)); [| reflexivity].
    match goal with
    | |- score (fst (addNewRow ?m ?k)) = _ =>
        pose proof (addNewRow_frame m k) as F; cbv zeta in F
    end.
    destruct F as (_ & _ & _ & Esc & _). rewrite Esc. reflexivity. }
  split; [exact Hb |]. rewrite E.
  split; [destruct (isTime (mode s)); lia |].
  split; intros Hm; rewrite Hm; lia.
Qed.

(** *** A pause *)

Lemma run_app (es es' : list Event) :
  forall s g, run (es ++ es') s g
              = run es' (fst (run es s g)) (snd (run es s g)).
Proof.
  induction es as [| e es IH]; intros s g; [reflexivity |].
  rewrite <- app_comm_cons. cbn [SumGame.run].
  destruct (step e s g) as [s1 g1]. apply IH.
Qed.

Lemma paused_run (es : list Event) (s : State) (g : Random) :
  isPaused s = true -> settled s -> Forall playInput es ->
  run es s g = (s, g).
Proof.
  intros Hp Hs Hes.
  induction Hes as [| e es He _ IH]; [reflexivity |].
  cbn [SumGame.run].
  assert (E : step e s g = (s, g)).
  { unfold SumGame.step.
    destruct e as [m | i | | | |]; try contradiction; cbn [SumGame.handle].
    - unfold handleBlockClick. rewrite Hp, orb_true_r.
      apply settled_checkSum. exact Hs.
    - rewrite timerTick_stopped;
        [apply settled_checkSum; exact Hs |].
      unfold timerRunning. rewrite Hp. apply andb_false_r. }
  rewrite E. exact IH.
Qed.

(** X15: a pause is invisible to the game.  From a reachable state that is not
    paused, pressing pause, then any clicks on tiles and firings of the
    interval, then pressing pause again (or resume), gives back exactly the
    state and the random source of before the pause. *)
Theorem pause_is_invisible (s : State) (g : Random) (es : list Event) :
  reachable s g -> unitDraws g -> isPaused s = false ->
  Forall playInput es ->
  run (TogglePause :: es ++ [TogglePause]) s g = (s, g)
  /\ run (TogglePause :: es ++ [Resume]) s g = (s, g).
Proof.
  intros H Hg Hp Hes.
  destruct (reachable_settled s g H Hg) as [Hs _].
  assert (Hs1 : settled (setIsPaused true s)) by exact Hs.
  assert (Hfirst : step TogglePause s g = (setIsPaused true s, g)).
  { unfold SumGame.step, SumGame.handle. rewrite Hp.
    apply settled_checkSum. exact Hs1. }
  assert (Hback : setIsPaused false (setIsPaused true s) = s).
  { destruct s. cbn in Hp. subst. reflexivity. }
  assert (Hlast : forall e, e = TogglePause \/ e = Resume ->
                    step e (setIsPaused true s) g = (s, g)).
  { intros e [-> | ->]; unfold SumGame.step, SumGame.handle;
      cbn [setIsPaused isPaused negb]; rewrite Hback;
      apply settled_checkSum; exact Hs. }
  assert (Hrun : forall e, e = TogglePause \/ e = Resume ->
                   run (TogglePause :: es ++ [e]) s g = (s, g)).
  { intros e He.
    change (run (TogglePause :: es ++ [e]) s g)
      with (let (s', g') := step TogglePause s g in run (es ++ [e]) s' g').
    rewrite Hfirst, run_app.
    rewrite (paused_run es (setIsPaused true s) g eq_refl Hs1 Hes).
    cbn [fst snd SumGame.run]. rewrite (Hlast e He). reflexivity. }
  split; apply Hrun; [left | right]; reflexivity.
Qed.

(** *** The best score *)

Lemma digitPrefix_digits (d : uint) :
  digitPrefix (NilEmpty.string_of_uint d) = NilEmpty.string_of_uint d.
Proof.
  induction d; cbn [NilEmpty.string_of_uint digitPrefix];
    [reflexivity | change (isDigit _) with true; cbv iota; f_equal; exact IHd ..].
Qed.

Lemma parse_digits (negative : bool) (d : uint) :
  d <> Nil ->
  match digitPrefix (NilEmpty.string_of_uint d) with
  | EmptyString => None
  | digits =>
      match NilEmpty.uint_of_string digits with
      | Some u => Some (if negative then - Z.of_uint u else Z.of_uint u)
      | None => None
      end
  end = Some (if negative then - Z.of_uint d else Z.of_uint d).
Proof.
  intros Hd. rewrite digitPrefix_digits.
  transitivity
    (match NilEmpty.uint_of_string (NilEmpty.string_of_uint d) with
     | Some u => Some (if negative then - Z.of_uint u else Z.of_uint u)
     | None => None
     end).
  - destruct d; [contradiction | reflexivity ..].
  - rewrite NilEmpty.usu. reflexivity.
Qed.

Lemma parseInt10_unsigned (d : uint) :
  d <> Nil -> parseInt10 (NilEmpty.string_of_uint d) = Some (Z.of_uint d).
Proof.
  intros Hd. pose proof (parse_digits false d Hd) as H.
  unfold parseInt10.
  destruct d; [contradiction | ..];
    cbn [NilEmpty.string_of_uint trimStart] in *;
    change (isWhiteSpace _) with false; cbv iota; cbv zeta; exact H.
Qed.

Lemma parseInt10_negative (d : uint) :
  d <> Nil ->
  parseInt10 (String "-" (NilEmpty.string_of_uint d)) = Some (- Z.of_uint d).
Proof.
  intros Hd. unfold parseInt10. cbn [trimStart].
  change (isWhiteSpace "-") with false. cbv iota. cbv zeta.
  exact (parse_digits true d Hd).
Qed.

Lemma digits_of_positive (p : positive) :
  NilZero.string_of_uint (Pos.to_uint p)
  = NilEmpty.string_of_uint (Pos.to_uint p).
Proof.
  pose proof (DecimalPos.Unsigned.to_uint_nonnil p) as Hd.
  destruct (Pos.to_uint p); [contradiction | reflexivity ..].
Qed.

Lemma parseInt10_toString (n : Z) : parseInt10 (Number_toString n) = Some n.
Proof.
  unfold Number_toString.
  destruct n as [| p | p]; [reflexivity | |];
    cbn [Z.to_int NilZero.string_of_int]; rewrite digits_of_positive.
  - rewrite parseInt10_unsigned
      by (apply DecimalPos.Unsigned.to_uint_nonnil).
    f_equal. exact (DecimalZ.of_to (Z.pos p)).
  - rewrite parseInt10_negative
      by (apply DecimalPos.Unsigned.to_uint_nonnil).
    f_equal. exact (DecimalZ.of_to (Z.neg p)).
Qed.

Lemma fold_max_ge (l : list Z) : forall a, a <= fold_left Z.max l a.
Proof.
  induction l as [| x l IH]; intros a; cbn [fold_left]; [lia |].
  specialize (IH (Z.max a x)). lia.
Qed.

Lemma bestAfter_numeric (scores : list Z) :
  forall (h : Z) (item : option string),
    bestAfter scores {| highScore := Some h; saved := item |}
    = {| highScore := Some (fold_left Z.max scores h);
         saved := if fold_left Z.max scores h >? h
                  then Some (Number_toString (fold_left Z.max scores h))
                  else item |}.
Proof.
  induction scores as [| sc l IH]; intros h item.
  - cbn [bestAfter fold_left]. rewrite Z.gtb_ltb, Z.ltb_irrefl. reflexivity.
  - change (bestAfter (sc :: l) {| highScore := Some h; saved := item |})
      with (bestAfter l (updateHighScore sc
                           {| highScore := Some h; saved := item |})).
    cbn [fold_left]. unfold updateHighScore. cbn [highScore].
    pose proof (fold_max_ge l (Z.max h sc)) as Hge.
    destruct (sc >? h) eqn:E.
    + apply Z.gtb_gt in E. rewrite IH.
      replace (Z.max h sc) with sc in * by lia.
      replace (fold_left Z.max l sc >? h) with true
        by (symmetry; apply Z.gtb_gt; lia).
      destruct (fold_left Z.max l sc >? sc) eqn:E2; [reflexivity |].
      rewrite Z.gtb_ltb in E2. apply Z.ltb_ge in E2.
      replace (fold_left Z.max l sc) with sc by lia. reflexivity.
    + rewrite Z.gtb_ltb in E. apply Z.ltb_ge in E. rewrite IH.
      replace (Z.max h sc) with h by lia. reflexivity.
Qed.

(** X16: the best score is the largest score seen.  Starting from a numeric
    best score [h], after the update effect has run on a sequence of scores
    the best score is the maximum of [h] and the scores; it never decreases;
    and the stored item is rewritten, with the decimal digits of the new best
    score, exactly when some score exceeded [h]. *)
Theorem best_is_maximum (scores : list Z) (h : Z) (item : option string) :
  let top := fold_left Z.max scores h in
  let b := bestAfter scores {| highScore := Some h; saved := item |} in
  highScore b = Some top
  /\ h <= top
  /\ (forall sc, In sc scores -> sc <= top)
  /\ saved b = (if top >? h then Some (Number_toString top) else item).
Proof.
  cbv zeta. rewrite bestAfter_numeric. cbn [highScore saved].
  split; [reflexivity |]. split; [apply fold_max_ge |].
  split; [| reflexivity].
  revert h. induction scores as [| x l IH]; intros h sc Hin; [contradiction |].
  cbn [fold_left]. destruct Hin as [-> | Hin]; [| apply IH; exact Hin].
  pose proof (fold_max_ge l (Z.max h sc)). lia.
Qed.

Lemma mountBest_nonneg (item : option string) (h : Z) :
  highScore (mountBest item) = Some h -> 0 <= h.
Proof.
  unfold mountBest, loadHighScore. cbn [saved].
  destruct item as [[| c r] |]; cbn [updateHighScore highScore];
    try (cbn; intros E; inversion E; lia).
  unfold updateHighScore. cbn [highScore].
  destruct (parseInt10 (String c r)) as [p |]; [| discriminate].
  destruct (0 >? p) eqn:E; cbn [highScore]; intros Eh; inversion Eh; subst.
  - lia.
  - rewrite Z.gtb_ltb in E. apply Z.ltb_ge in E. exact E.
Qed.

Lemma mountBest_again (item : option string) :
  highScore (mountBest (saved (mountBest item))) = highScore (mountBest item).
Proof.
  unfold mountBest at 2 3. unfold loadHighScore. cbn [saved].
  destruct item as [[| c r] |]; [reflexivity | | reflexivity].
  unfold updateHighScore. cbn [highScore].
  destruct (parseInt10 (String c r)) as [p |] eqn:Ep.
  - destruct (0 >? p) eqn:E; cbn [saved highScore]; [reflexivity |].
    unfold mountBest, loadHighScore, updateHighScore. cbn [saved highScore].
    rewrite Ep. cbn [highScore]. rewrite E. reflexivity.
  - cbn [saved highScore].
    unfold mountBest, loadHighScore, updateHighScore. cbn [saved highScore].
    rewrite Ep. reflexivity.
Qed.

Lemma mountBest_toString (n : Z) :
  0 <= n -> highScore (mountBest (Some (Number_toString n))) = Some n.
Proof.
  intros Hn. pose proof (parseInt10_toString n) as Hp.
  unfold mountBest, loadHighScore. cbn [saved].
  destruct (Number_toString n) as [| c r]; [discriminate Hp |].
  unfold updateHighScore. cbn [highScore]. rewrite Hp.
  replace (0 >? n) with false
    by (symmetry; rewrite Z.gtb_ltb; apply Z.ltb_ge; exact Hn).
  reflexivity.
Qed.

(** X17: the best score survives a reload.  Whatever the storage held when the
    application was mounted and whatever scores the session went through,
    mounting the application again on the storage the session left gives the
    same best score: what [score.toString()] wrote is read back by
    [parseInt] as the same number. *)
Theorem best_survives_reload (item : option string) (scores : list Z) :
  let b := bestAfter scores (mountBest item) in
  highScore (mountBest (saved b)) = highScore b.
Proof.
  cbv zeta. unfold bestAfter.
  assert (Hgen : forall b0,
             highScore (mountBest (saved b0)) = highScore b0 ->
             (forall h, highScore b0 = Some h -> 0 <= h) ->
             highScore
               (mountBest
                  (saved (fold_left (fun acc sc => updateHighScore sc acc)
                                    scores b0)))
             = highScore (fold_left (fun acc sc => updateHighScore sc acc)
                                    scores b0)).
  { induction scores as [| sc l IH]; intros b0 Hkept Hpos; [exact Hkept |].
    cbn [fold_left]. apply IH.
    - unfold updateHighScore.
      destruct (highScore b0) as [h |] eqn:Eh; [| congruence].
      destruct (sc >? h) eqn:E; [| congruence].
      cbn [saved highScore]. apply mountBest_toString.
      apply Z.gtb_gt in E. specialize (Hpos h eq_refl). lia.
    - intros h. unfold updateHighScore.
      destruct (highScore b0) as [h0 |] eqn:Eh; [| congruence].
      destruct (sc >? h0) eqn:E.
      + cbn [highScore]. intros Es. inversion Es; subst.
        apply Z.gtb_gt in E. specialize (Hpos h0 eq_refl). lia.
      + intros Es. apply Hpos. congruence. }
  apply Hgen; [apply mountBest_again | apply mountBest_nonneg].
Qed.

(** X18: a stored item that does not start with a number switches the best
    score off.  If [parseInt] finds no digit in a non-empty stored item, the
    best score is NaN after mounting, no score of the session ever replaces
    it, and the item is never rewritten. *)
Theorem unreadable_item_disables_best (c : ascii) (r : string) (scores : list Z) :
  parseInt10 (String c r) = None ->
  bestAfter scores (mountBest (Some (String c r)))
  = {| highScore := None; saved := Some (String c r) |}.
Proof.
  intros Hp.
  assert (E : mountBest (Some (String c r))
              = {| highScore := None; saved := Some (String c r) |}).
  { unfold mountBest, loadHighScore. cbn [saved]. rewrite Hp. reflexivity. }
  rewrite E. unfold bestAfter.
  induction scores as [| sc l IH]; [reflexivity | exact IH].
Qed.

End Properties.

(** ** The properties on the sample inputs *)

Lemma sampleRandom_unitDraws : unitDraws sampleRandom.
Proof.
  intros n. unfold sampleRandom, sampleDraws, Qle, Qlt.
  cbn [draws Qnum Qden].
  pose proof (Nat.mod_upper_bound (n * 37 + 11) 100 ltac:(discriminate)) as H.
  apply Nat2Z.inj_lt in H.
  split; lia.
Qed.

Lemma addNewRow_overflow_witness :
  (exists b, In b (blocks fullColumn) /\ row b = 0)
  /\ addNewRow sampleToString36 fullColumn sampleRandom
     = (setIsGameOver true fullColumn, sampleRandom).
Proof.
  assert (H : exists b, In b (blocks fullColumn) /\ row b = 0).
  { exists (tile "top" 4 0 2). split; [left; reflexivity | reflexivity]. }
  split; [exact H |].
  exact (proj1 (addNewRow_overflow sampleToString36 fullColumn sampleRandom H)).
Defined.

Lemma bust_clears_selection_witness :
  currentSum overshoot = 12 /\ targetSum overshoot = 10
  /\ checkSum sampleToString36 overshoot sampleRandom
     = (setSelectedIds [] overshoot, sampleRandom).
Proof.
  split; [reflexivity |]. split; [reflexivity |].
  exact (proj1 (bust_clears_selection sampleToString36 overshoot sampleRandom
                  eq_refl)).
Defined.

Lemma match_transition_witness :
  currentSum matching = targetSum matching
  /\ checkSum sampleToString36 matching sampleRandom
     = (afterMatch matching 11, snd (generateTarget sampleRandom))
  /\ score (afterMatch matching 11) = 20 + 2 * 10 + 8.
Proof.
  split; [reflexivity |].
  pose proof (match_transition sampleToString36 matching sampleRandom
                sampleRandom_unitDraws ltac:(discriminate) eq_refl) as H.
  cbv zeta in H. split; [exact (proj1 H) | reflexivity].
Defined.

Lemma classic_match_game_over_witness :
  currentSum fullColumn = targetSum fullColumn
  /\ checkSum sampleToString36 fullColumn sampleRandom
     = (setIsGameOver true (afterMatch fullColumn 11),
        snd (generateTarget sampleRandom))
  /\ blocks (afterMatch fullColumn 11) = [tile "top" 4 0 2]
  /\ score (afterMatch fullColumn 11) = 60.
Proof.
  split; [reflexivity |].
  assert (H : exists b, In b (blocks fullColumn)
                        /\ includes (id b) (selectedIds fullColumn) = false
                        /\ row b = 0).
  { exists (tile "top" 4 0 2).
    split; [left; reflexivity | split; reflexivity]. }
  pose proof (classic_match_game_over sampleToString36 fullColumn sampleRandom
                eq_refl ltac:(discriminate) eq_refl H) as R.
  split; [exact (proj1 R) | split; reflexivity].
Defined.

(** The tick of the specification's scenario: 0.05 seconds left, the timer
    running.  The decremented time is below 0, yet the tick of the code only
    stores it: the time left is -0.05, not [TIME_LIMIT], and the board still
    has its 3 tiles.  The tick as the specification words it resets the time
    and adds a row of 6 tiles. *)
Lemma timerTick_at_0_05 :
  timerRunning almostOut = true
  /\ (timeLeft almostOut - 0.1 <=? 0)%float = true
  /\ timerTick sampleToString36 almostOut sampleRandom
     = (setTimeLeft (-0.05)%float almostOut, sampleRandom)
  /\ timeLeft (fst (timerTick sampleToString36 almostOut sampleRandom))
     <> TIME_LIMIT
  /\ List.length (blocks (fst (timerTick sampleToString36 almostOut sampleRandom)))
     = 3%nat
  /\ timeLeft (fst (advanceTime_spec sampleToString36 0.1 almostOut sampleRandom))
     = TIME_LIMIT
  /\ List.length
       (blocks (fst (advanceTime_spec sampleToString36 0.1 almostOut sampleRandom)))
     = 9%nat.
Proof.
  split; [reflexivity |]. split; [reflexivity |]. split; [reflexivity |].
  split.
  { intros E.
    apply (f_equal (fun t => (t <? 0)%float)) in E.
    vm_compute in E. discriminate E. }
  split; [reflexivity |]. split; reflexivity.
Qed.

(** The tick after that one finds the time below 0, advances the rows and
    resets the time. *)
Lemma timerTick_after_0_05 :
  let s1 := fst (timerTick sampleToString36 almostOut sampleRandom) in
  let s2 := fst (timerTick sampleToString36 s1 sampleRandom) in
  timeLeft s2 = TIME_LIMIT /\ List.length (blocks s2) = 9%nat.
Proof. split; reflexivity. Qed.

Lemma timerTick_cases_witness :
  timerRunning almostOut = true
  /\ (timeLeft almostOut <=? 0)%float = false
  /\ timerTick sampleToString36 almostOut sampleRandom
     = (setTimeLeft (timeLeft almostOut - 0.1)%float almostOut, sampleRandom)
  /\ timeLeft (fst (timerTick sampleToString36
                      (setTimeLeft (-0.05)%float almostOut) sampleRandom))
     = TIME_LIMIT.
Proof.
  split; [reflexivity |]. split; [reflexivity |].
  split.
  - exact (proj2 (timerTick_cases sampleToString36 almostOut sampleRandom
                    eq_refl) eq_refl).
  - exact (proj2 (proj1 (timerTick_cases sampleToString36
                           (setTimeLeft (-0.05)%float almostOut) sampleRandom
                           eq_refl) eq_refl)).
Defined.

Lemma idleRun_reachable :
  reachable sampleToString36 (fst idleRun) (snd idleRun).
Proof. apply run_reachable. apply reach_init. Qed.

Lemma playedRun_reachable :
  reachable sampleToString36 (fst playedRun) (snd playedRun).
Proof. apply run_reachable. apply reach_init. Qed.

(** A game in time mode left alone: after 100 firings of the interval
    binary64 subtraction has left a little more than 0, so the next firing
    decrements once more, and the time left is negative. *)
Lemma timeLeft_negative_after_101_ticks :
  reachable sampleToString36 (fst idleRun) (snd idleRun)
  /\ timeAfter 100 = 1.8790524691780774e-14%float
  /\ timeLeft (fst idleRun) = (-0.099999999999981215)%float
  /\ (timeLeft (fst idleRun) <? 0)%float = true.
Proof.
  split; [exact idleRun_reachable |].
  split; [vm_compute; reflexivity |].
  split; vm_compute; reflexivity.
Qed.

Lemma timeLeft_range_witness :
  onCountdown (timeLeft (fst idleRun))
  /\ ((-0.1) <=? timeLeft (fst idleRun))%float = true
  /\ (timeLeft (fst idleRun) <=? TIME_LIMIT)%float = true.
Proof.
  exact (timeLeft_range sampleToString36 (fst idleRun) (snd idleRun)
           idleRun_reachable).
Defined.

Lemma cells_distinct_witness :
  List.length (blocks (fst playedRun)) = 22%nat
  /\ NoDup (map position (blocks (fst playedRun))).
Proof.
  split; [vm_compute; reflexivity |].
  exact (cells_distinct sampleToString36 (fst playedRun) (snd playedRun)
           playedRun_reachable).
Defined.

Lemma score_monotone_witness :
  score (fst playedRun) = 30
  /\ 0 <= score (fst playedRun)
  /\ score (fst playedRun)
     <= score (fst (run sampleToString36 [Tick; TogglePause; BlockClick "a"; Menu]
                       (fst playedRun) (snd playedRun))).
Proof.
  split; [vm_compute; reflexivity |].
  pose proof (score_monotone sampleToString36 (fst playedRun) (snd playedRun)
                playedRun_reachable) as [H0 H1].
  split; [exact H0 | apply H1; repeat constructor].
Defined.

(** A click with an id that no tile has is not ignored: the id enters the
    selection, so the state changes and the selection is no longer within
    the board. *)
Lemma handleBlockClick_stale_id :
  let s := fst (startGame sampleToString36 time initialState sampleRandom) in
  isGameOver s || isPaused s = false
  /\ ~ In "ghost"%string (map id (blocks s))
  /\ selectedIds s = []
  /\ selectedIds (handleBlockClick "ghost" s) = ["ghost"%string]
  /\ handleBlockClick "ghost" s <> s
  /\ reachable sampleToString36 (fst staleClick) (snd staleClick)
  /\ selectedIds (fst staleClick) = ["ghost"%string]
  /\ ~ selectionOnBoard (fst staleClick).
Proof.
  cbv zeta.
  assert (Hout : forall bs : list Block,
             includes "ghost" (map id bs) = false ->
             ~ In "ghost"%string (map id bs))
    by (intros bs; apply includes_not_In).
  split; [reflexivity |].
  split; [apply Hout; vm_compute; reflexivity |].
  split; [reflexivity |].
  split; [vm_compute; reflexivity |].
  split.
  { intros E. apply (f_equal selectedIds) in E.
    vm_compute in E. discriminate E. }
  split; [apply run_reachable; apply reach_init |].
  split; [vm_compute; reflexivity |].
  intros H. apply (Hout (blocks (fst staleClick))); [vm_compute; reflexivity |].
  apply H. vm_compute. left. reflexivity.
Qed.

Lemma playedRun_legal :
  legalRun sampleToString36 clickOnBoard
           [StartGame time; Tick; BlockClick "ha2voha"; BlockClick "yk5rcyk"]
           initialState sampleRandom.
Proof.
  cbn [legalRun clickOnBoard].
  split; [exact I |]. split; [exact I |].
  split; [apply includes_In; vm_compute; reflexivity |].
  split; [apply includes_In; vm_compute; reflexivity | exact I].
Qed.

Lemma handleBlockClick_toggle_witness :
  handleBlockClick "a" (setIsPaused true almostOut) = setIsPaused true almostOut
  /\ selectedIds (handleBlockClick "a" almostOut) = ["a"%string]
  /\ (In "a"%string (selectedIds (handleBlockClick "a" almostOut))
      <-> ~ In "a"%string (selectedIds almostOut))
  /\ selectionOnBoard (fst playedRun).
Proof.
  destruct (handleBlockClick_toggle sampleToString36) as [Hoff [Htoggle Hsel]].
  split; [apply Hoff; reflexivity |].
  split; [reflexivity |].
  split; [exact (proj1 (Htoggle "a"%string almostOut eq_refl)) |].
  apply (Hsel (fst playedRun) (snd playedRun)).
  apply run_reachableVia; [apply reach_init | exact playedRun_legal].
Defined.




(** ** The further properties on the sample inputs *)

Lemma run_unitDraws (es : list Event) :
  forall s g, unitDraws g ->
              unitDraws (snd (run sampleToString36 es s g)).
Proof.
  induction es as [| e es IH]; intros s g Hg; [exact Hg |].
  cbn [run].
  pose proof (step_draws sampleToString36 e s g) as Hd.
  destruct (step sampleToString36 e s g) as [s1 g1]. cbn [snd] in Hd.
  apply IH. intros n. rewrite Hd. apply Hg.
Qed.

Lemma oneClick_reachable :
  reachable sampleToString36 (fst oneClick) (snd oneClick).
Proof. apply run_reachable. apply reach_init. Qed.

Lemma lostRun_reachable :
  reachable sampleToString36 (fst lostRun) (snd lostRun).
Proof. apply run_reachable. apply reach_init. Qed.


Lemma tiles_in_grid_witness :
  Forall inGrid (blocks (fst lostRun))
  /\ (List.length (blocks (fst lostRun)) <= 60)%nat.
Proof.
  exact (tiles_in_grid sampleToString36 (fst lostRun) (snd lostRun)
           lostRun_reachable).
Defined.


Lemma selection_below_target_witness :
  currentSum (fst oneClick) = 8 /\ targetSum (fst oneClick) = 11
  /\ currentSum (fst oneClick) < targetSum (fst oneClick).
Proof.
  split; [vm_compute; reflexivity |]. split; [vm_compute; reflexivity |].
  destruct (selection_below_target sampleToString36 (fst oneClick)
              (snd oneClick) oneClick_reachable
              (run_unitDraws _ _ _ sampleRandom_unitDraws))
    as (_ & Hlt & _).
  apply Hlt. vm_compute. discriminate.
Defined.

Lemma pausedAtMenu_reachable :
  reachable sampleToString36 pausedAtMenu
            (snd (run sampleToString36 [StartGame classic; TogglePause; Menu]
                      initialState sampleRandom)).
Proof. apply run_reachable. apply reach_init. Qed.

Lemma ignored_input_witness :
  let g := snd (run sampleToString36 [StartGame classic; TogglePause; Menu]
                    initialState sampleRandom) in
  isPaused pausedAtMenu = true
  /\ step sampleToString36 (BlockClick "ha2voha") pausedAtMenu g
     = (pausedAtMenu, g)
  /\ step sampleToString36 Tick pausedAtMenu g = (pausedAtMenu, g).
Proof.
  cbv zeta.
  destruct (ignored_input sampleToString36 pausedAtMenu _
              pausedAtMenu_reachable
              (run_unitDraws _ _ _ sampleRandom_unitDraws)) as [Hc Ht].
  split; [vm_compute; reflexivity |].
  split; [apply Hc | apply Ht]; vm_compute; reflexivity.
Defined.

Lemma game_over_is_final_witness :
  isGameOver (fst lostRun) = true
  /\ sameGame (fst lostRun)
       (fst (run sampleToString36
                 [Tick; BlockClick "ha2voha"; TogglePause; Tick; Resume; Menu]
                 (fst lostRun) (snd lostRun))).
Proof.
  assert (Hover : isGameOver (fst lostRun) = true) by (vm_compute; reflexivity).
  split; [exact Hover |].
  apply (game_over_is_final sampleToString36 (fst lostRun) (snd lostRun)
           lostRun_reachable (run_unitDraws _ _ _ sampleRandom_unitDraws)
           Hover).
  repeat constructor.
Defined.

Lemma selection_NoDup_witness : NoDup (selectedIds (fst oneClick)).
Proof.
  exact (selection_NoDup sampleToString36 (fst oneClick) (snd oneClick)
           oneClick_reachable).
Defined.


Lemma match_tile_count_witness :
  (List.length (blocks (fst (checkSum sampleToString36 matching sampleRandom)))
   + 2)%nat = 3%nat.
Proof.
  assert (Hids : NoDup (map id (blocks matching))).
  { repeat (constructor; [cbn; intuition discriminate |]). constructor. }
  assert (Hsel : NoDup (selectedIds matching)).
  { repeat (constructor; [cbn; intuition discriminate |]). constructor. }
  assert (Hon : selectionOnBoard matching).
  { intros j [<- | [<- | []]]; cbn; tauto. }
  apply (proj1 (match_tile_count sampleToString36 matching sampleRandom
                  ltac:(discriminate) eq_refl Hids Hsel Hon)).
  reflexivity.
Defined.

Lemma round_lasts_102_ticks_witness :
  ticks sampleToString36 101 (setTimeLeft TIME_LIMIT almostOut) sampleRandom
  = (setTimeLeft (timeAfter 101) almostOut, sampleRandom)
  /\ List.length
       (blocks (fst (ticks sampleToString36 102
                           (setTimeLeft TIME_LIMIT almostOut) sampleRandom)))
     = 9%nat.
Proof.
  destruct (round_lasts_102_ticks sampleToString36 almostOut sampleRandom
              eq_refl) as [Hfirst Hlast].
  split; [apply Hfirst; repeat constructor |].
  rewrite Hlast. reflexivity.
Defined.

Lemma match_score_bounds_witness :
  score (fst oneClick) = 0
  /\ score (fst (step sampleToString36 (BlockClick "yk5rcyk")
                      (fst oneClick) (snd oneClick)))
     = 0 + 10 * 2 + Math_ceil (timeLeft (fst oneClick))
  /\ Math_ceil (timeLeft (fst oneClick)) = 10.
Proof.
  split; [vm_compute; reflexivity |].
  split; [| vm_compute; reflexivity].
  pose proof (match_score_bounds sampleToString36 (fst oneClick) (snd oneClick)
                "yk5rcyk" oneClick_reachable) as H.
  cbv zeta in H.
  assert (Hne : selectedIds (handleBlockClick "yk5rcyk" (fst oneClick)) <> [])
    by (vm_compute; discriminate).
  assert (Hsum : currentSum (handleBlockClick "yk5rcyk" (fst oneClick))
                 = targetSum (handleBlockClick "yk5rcyk" (fst oneClick)))
    by (vm_compute; reflexivity).
  destruct (H Hne Hsum) as (_ & _ & Htime & _).
  replace (10 * 2) with
    (10 * Z.of_nat (List.length
                      (selectedIds (handleBlockClick "yk5rcyk" (fst oneClick)))))
    by (vm_compute; reflexivity).
  replace 0 with (score (fst oneClick)) at 1 by (vm_compute; reflexivity).
  apply Htime. vm_compute. reflexivity.
Defined.

Lemma unreadable_item_disables_best_witness :
  parseInt10 "abc" = None
  /\ bestAfter [0; 30; 70] (mountBest (Some "abc"%string))
     = {| highScore := None; saved := Some "abc"%string |}.
Proof.
  split; [reflexivity |].
  exact (unreadable_item_disables_best "a"%char "bc" [0; 30; 70] eq_refl).
Defined.

Lemma pause_is_invisible_witness :
  run sampleToString36
      (TogglePause :: [Tick; BlockClick "yk5rcyk"; Tick] ++ [TogglePause])
      (fst oneClick) (snd oneClick)
  = (fst oneClick, snd oneClick).
Proof.
  apply (pause_is_invisible sampleToString36 (fst oneClick) (snd oneClick)
           [Tick; BlockClick "yk5rcyk"; Tick] oneClick_reachable
           (run_unitDraws _ _ _ sampleRandom_unitDraws)).
  - vm_compute. reflexivity.
  - repeat constructor.
Defined.

End SumGame.
